(** * Shell-completion generator: serializers and argument lookup

    A shallow embedding of [extras/scripts/completion/generate_completion.py]:
    the zsh and fish serializers, the argument lookup, and the
    load / bind / render / write pipeline that the driver runs once per
    registered shell.

    Python [str] values are modelled as [string], one character for one
    code point.  The model follows Python on ASCII text (code points below
    128): there [len] is [String.length] and [str.upper] changes the letters
    [a]..[z] and nothing else.  Outside ASCII, [len] and [upper] of Python
    are not modelled, and the properties that go through them assume ASCII
    aliases.  Exceptions are values of [exn], and fallible code returns
    [result]. *)

From Stdlib Require Import Ascii String List Bool Arith Lia.
From stdpp Require Import base option list strings gmap.

Import ListNotations.
Local Open Scope list_scope.

#[local] Arguments String.append : simpl nomatch.
#[local] Arguments Ascii.eqb : simpl never.

(** ** Exceptions and the error monad *)

(** The exception classes the module can raise.  [ValueError] carries the
    message when the source builds one ([raise ValueError(f'...')]); the
    interpreter's own messages (failed unpacking, [max] of an empty
    sequence) are left out.  [Foreign] is an exception of a class that
    belongs to a collaborator, such as the template engine. *)
Inductive exn : Type :=
| ValueError (msg : option string)
| IndexError
| OSError
| Foreign (class : string).

Inductive result (A : Type) : Type :=
| OK (x : A)
| Raise (e : exn).

Arguments OK {A} x.
Arguments Raise {A} e.

#[global] Instance result_ret : MRet result := λ A x, OK x.
#[global] Instance result_bind : MBind result := λ A B k m,
  match m with
  | OK x => k x
  | Raise e => Raise e
  end.

(** ** Python string primitives *)

Module Py.

Definition tab : ascii := ascii_of_nat 9.
Definition dquote : ascii := ascii_of_nat 34.

Definition str (c : ascii) : string := String c EmptyString.

(** [sep.join(parts)]. *)
Fixpoint join (sep : string) (parts : list string) : string :=
  match parts with
  | [] => ""
  | [p] => p
  | p :: rest => p +:+ sep +:+ join sep rest
  end.

(** [s.replace(old, new)] for a one-character [old]; every call site of
    the module passes a one-character pattern. *)
Fixpoint replace (old : ascii) (new : string) (s : string) : string :=
  match s with
  | EmptyString => EmptyString
  | String c s' =>
      if Ascii.eqb c old then new +:+ replace old new s'
      else String c (replace old new s')
  end.

(** [s.lstrip(c)] for a one-character set. *)
Fixpoint lstrip (c : ascii) (s : string) : string :=
  match s with
  | EmptyString => EmptyString
  | String d s' => if Ascii.eqb d c then lstrip c s' else s
  end.

(** [s.rstrip(c)] for a one-character set. *)
Fixpoint rstrip (c : ascii) (s : string) : string :=
  match s with
  | EmptyString => EmptyString
  | String d s' =>
      match rstrip c s' with
      | EmptyString => if Ascii.eqb d c then EmptyString else str d
      | t => String d t
      end
  end.

(** [s.strip(c)] for a one-character set. *)
Definition strip (c : ascii) (s : string) : string := rstrip c (lstrip c s).

Definition upper_char (c : ascii) : ascii :=
  let n := nat_of_ascii c in
  if ((97 <=? n) && (n <=? 122))%nat then ascii_of_nat (n - 32) else c.

(** [s.upper()] on ASCII text, where only the letters [a]..[z] change. *)
Fixpoint upper (s : string) : string :=
  match s with
  | EmptyString => EmptyString
  | String c s' => String (upper_char c) (upper s')
  end.

(** Truthiness of a [str]: the empty string is falsy. *)
Definition truthy (s : string) : bool :=
  match s with
  | EmptyString => false
  | String _ _ => true
  end.

(** [max(xs, key=len)]: the first element of maximal length;
    [ValueError] on an empty sequence.  The length is the number of
    characters, which on ASCII text is what [len] counts. *)
Fixpoint max_len_from (best : string) (xs : list string) : string :=
  match xs with
  | [] => best
  | x :: rest =>
      if (String.length best <? String.length x)%nat
      then max_len_from x rest
      else max_len_from best rest
  end.

Definition max_len (xs : list string) : result string :=
  match xs with
  | [] => Raise (ValueError None)
  | x :: rest => OK (max_len_from x rest)
  end.

(** [xs[0]]. *)
Definition index0 (xs : list string) : result string :=
  match xs with
  | [] => Raise IndexError
  | x :: _ => OK x
  end.

(** [a, b = xs]. *)
Definition unpack2 (xs : list string) : result (string * string) :=
  match xs with
  | [a; b] => OK (a, b)
  | _ => Raise (ValueError None)
  end.

(** [(a,) = xs]. *)
Definition unpack1 (xs : list string) : result string :=
  match xs with
  | [a] => OK a
  | _ => Raise (ValueError None)
  end.

(** [x in xs] on a list: equality with some element. *)
Definition contains `{EqDecision A} (x : A) (xs : list A) : bool :=
  existsb (λ y, bool_decide (x = y)) xs.

End Py.

(** ** Data model *)

(** Modelled from the spec: the classes [Argument] and [ParserSpec] come
    from [httpie.cli.options], which is not part of the module.  The
    configuration is the optional-key mapping of the data model: a key that
    is absent is [None], and reading the attribute of an absent key gives
    Python's [None].  [lazy_choices] is only ever tested for presence. *)
Record Configuration : Type := {
  metavar : option string;
  choices : option (list string);
  lazy_choices : option unit;
}.

Record Argument : Type := {
  aliases : list string;
  is_flag : bool;
  is_positional : bool;
  is_hidden : bool;
  short_help : string;
  configuration : Configuration;
}.

Record ArgumentGroup : Type := {
  arguments : list Argument;
}.

Record ParserSpec : Type := {
  groups : list ArgumentGroup;
}.

#[global] Instance exn_eq_dec : EqDecision exn.
Proof. solve_decision. Defined.
#[global] Instance result_eq_dec `{EqDecision A} : EqDecision (result A).
Proof. solve_decision. Defined.
#[global] Instance Configuration_eq_dec : EqDecision Configuration.
Proof. solve_decision. Defined.
#[global] Instance Argument_eq_dec : EqDecision Argument.
Proof. solve_decision. Defined.

(** ** Argument lookup *)

(** Lines 187-190: the aliases when the list is non-empty (a non-empty list
    is truthy), otherwise the one-element list holding the metavar. *)
Definition targets (argument : Argument) : list (option string) :=
  match aliases argument with
  | [] => [metavar (configuration argument)]
  | _ :: _ => Some <$> aliases argument
  end.

(** Line 192: [name in targets]. *)
Definition is_target (name : string) (argument : Argument) : bool :=
  Py.contains (Some name) (targets argument).

(** The inner loop of [find_argument_by_target_name] over one group. *)
Fixpoint find_in_arguments (args : list Argument) (name : string)
  : option Argument :=
  match args with
  | [] => None
  | argument :: rest =>
      if is_target name argument then Some argument
      else find_in_arguments rest name
  end.

(** The outer loop over the groups. *)
Fixpoint find_in_groups (gs : list ArgumentGroup) (name : string)
  : option Argument :=
  match gs with
  | [] => None
  | group :: rest =>
      match find_in_arguments (arguments group) name with
      | Some argument => Some argument
      | None => find_in_groups rest name
      end
  end.

Definition find_argument_by_target_name (spec : ParserSpec) (name : string)
  : result Argument :=
  match find_in_groups (groups spec) name with
  | Some argument => OK argument
  | None =>
      Raise (ValueError (Some ("Could not find argument with name " +:+ name)))
  end.

(** ** Zsh serializer *)

Definition escape_zsh (text : string) : string :=
  Py.replace ":" "\:" text.

(** Lines 113-116: the prefix and the first entry of [declaration]. *)
Definition zsh_aliases (argument : Argument) : result (string * list string) :=
  if (1 <? length (aliases argument))%nat
  then OK ("{" +:+ Py.join "," (aliases argument) +:+ "}", [])
  else alias ← Py.index0 (aliases argument); OK ("", [alias]).

(** Lines 123-135: the metavar, [None] when there is none. *)
Definition zsh_metavar (argument : Argument) : result (option string) :=
  match metavar (configuration argument) with
  | Some m => OK (Some m)
  | None =>
      match choices (configuration argument) with
      | Some _ =>
          longest ← Py.max_len (aliases argument);
          OK (Some (Py.upper (Py.replace "-" "_" (Py.lstrip "-" longest))))
      | None => OK None
      end
  end.

(** Lines 137-141: [if metavar:] holds for a non-empty string only. *)
Definition zsh_metavar_segment (m : option string) : list string :=
  match m with
  | Some m =>
      if Py.truthy m then [":" +:+ escape_zsh (Py.strip " " m) +:+ ":"]
      else []
  | None => []
  end.

(** Lines 143-144. *)
Definition zsh_choices_segment (cs : option (list string)) : list string :=
  match cs with
  | Some cs => ["(" +:+ Py.join " " cs +:+ ")"]
  | None => []
  end.

(** The prefix and the [declaration] list as line 146 finds them. *)
Definition zsh_declaration (argument : Argument)
  : result (string * list string) :=
  '(prefix, declaration) ← zsh_aliases argument;
  let declaration :=
    if negb (is_flag argument) then declaration ++ ["="] else declaration in
  let declaration := declaration ++ ["[" +:+ short_help argument +:+ "]"] in
  m ← zsh_metavar argument;
  let declaration := declaration ++ zsh_metavar_segment m in
  let declaration :=
    declaration ++ zsh_choices_segment (choices (configuration argument)) in
  OK (prefix, declaration).

Definition serialize_argument_to_zsh (argument : Argument) : result string :=
  '(prefix, declaration) ← zsh_declaration argument;
  OK (prefix +:+ "'" +:+ Py.join "" declaration +:+ "'").

(** ** Fish serializer *)

(** Lines 159-163: the two-slot unpacking, and the one-slot unpacking in the
    handler of its [ValueError]. *)
Definition fish_aliases (argument : Argument)
  : result (option string * string) :=
  match Py.unpack2 (aliases argument) with
  | OK (short_form, long_form) => OK (Some short_form, long_form)
  | Raise (ValueError _) =>
      long_form ← Py.unpack1 (aliases argument); OK (None, long_form)
  | Raise e => Raise e
  end.

(** Lines 165-167: [if short_form:] fails for [None] and for [''] . *)
Definition fish_short (short_form : option string) : list string :=
  match short_form with
  | Some s => if Py.truthy s then ["-s"; s] else []
  | None => []
  end.

(** Lines 172-176. *)
Definition fish_choices (c : Configuration) : list string :=
  match choices c with
  | Some cs => ["-xa"; Py.str Py.dquote +:+ Py.join " " cs +:+ Py.str Py.dquote]
  | None =>
      match lazy_choices c with
      | Some _ => ["-x"]
      | None => []
      end
  end.

(** Lines 178-179. *)
Definition fish_description (help : string) : list string :=
  ["-d"; "'" +:+ Py.replace "'" "\'" help +:+ "'"].

(** The [declaration] list as line 181 finds it. *)
Definition fish_declaration (argument : Argument) : result (list string) :=
  let declaration := ["complete"; "-c"; "http"] in
  '(short_form, long_form) ← fish_aliases argument;
  let declaration := declaration ++ fish_short short_form in
  let declaration := declaration ++ ["-l"; long_form] in
  let declaration := declaration ++ fish_choices (configuration argument) in
  let declaration := declaration ++ fish_description (short_help argument) in
  OK declaration.

Definition serialize_argument_to_fish (argument : Argument) : result string :=
  declaration ← fish_declaration argument;
  OK (Py.join (Py.str Py.tab) declaration).

(** ** Sample arguments *)

Definition no_configuration : Configuration :=
  {| metavar := None; choices := None; lazy_choices := None |}.

Definition option_argument (names : list string) (flag : bool) (help : string)
    (c : Configuration) : Argument :=
  {| aliases := names; is_flag := flag; is_positional := false;
     is_hidden := false; short_help := help; configuration := c |}.

Definition help_argument : Argument :=
  option_argument ["-h"; "--help"] true "Show help" no_configuration.

Definition output_argument : Argument :=
  option_argument ["-o"; "--output"] false "Write to 'file'" no_configuration.

Definition json_argument : Argument :=
  option_argument ["--json"] false "Output format"
    {| metavar := Some "FORMAT"; choices := None; lazy_choices := None |}.

Definition format_argument : Argument :=
  option_argument ["-o"; "--output-format"] false "Format"
    {| metavar := None; choices := Some ["json"; "xml"];
       lazy_choices := None |}.

(** ** Registration and rendering pipeline *)

(** The objects a template can see: the values of the [globals] of the
    template and of the keyword arguments of [render].  [External] stands for
    a function that the module imports and hands over without calling it
    ([generate_flow], [compile_zsh]). *)
Inductive value : Type :=
| AnArgument (argument : Argument)
| ArgumentList (args : list Argument)
| StringList (xs : list string)
| Predicate (p : string → bool)
| Escaper (f : string → string)
| Serializer (f : Argument → result string)
| External (name : string).

(** What one run can observe and change: the files, by path, the paths
    that cannot be written to (a missing directory, a file without write
    permission), and the lines printed so far. *)
Record world : Type := {
  files : gmap string string;
  unwritable : gset string;
  stdout : list string;
}.

Definition COMMON_HTTP_METHODS : list string :=
  ["GET"; "POST"; "PUT"; "DELETE"; "HEAD"; "OPTIONS"; "PATCH"; "TRACE";
   "CONNECT"].

(** [Path.read_text]: a missing file raises [FileNotFoundError], an
    [OSError]. *)
Definition read_text (w : world) (path : string) : result string :=
  match files w !! path with
  | Some text => OK text
  | None => Raise OSError
  end.

(** [Path.write_text]: the file is created or overwritten; on a path that
    cannot be written to, [OSError] is raised and nothing changes. *)
Definition write_text (w : world) (path text : string) : result world :=
  if decide (path ∈ unwritable w) then Raise OSError
  else OK {| files := <[path := text]> (files w);
             unwritable := unwritable w; stdout := stdout w |}.

Definition print (w : world) (line : string) : world :=
  {| files := files w; unwritable := unwritable w;
     stdout := stdout w ++ [line] |}.

Section Pipeline.

(** The collaborators of the module: where the [extras] directory is, the
    separator constant of [httpie.cli.constants], and the template engine
    ([Template(text)], and [render] with keyword arguments on a template
    whose globals were updated), each of which can raise. *)
Variable EXTRAS_DIR : string.
Variable SEPARATOR_FILE_UPLOAD : string.
Variable template : Type.
Variable Template : string → result template.
Variable render :
  template → gmap string value → gmap string value → result string.

(** What [from zsh import compile_zsh] on line 200 gives: the function, or
    the exception of an import that fails. *)
Variable compile_zsh : result value.

Definition COMPLETION_DIR : string := EXTRAS_DIR +:+ "/completion".
Definition TEMPLATES_DIR : string := COMPLETION_DIR +:+ "/templates".
Definition COMPLETION_TEMPLATE_BASE : string := TEMPLATES_DIR +:+ "/completion".
Definition COMPLETION_SCRIPT_BASE : string := COMPLETION_DIR +:+ "/completion".

(** [path.with_suffix(suffix)] on a path whose last component has no dot,
    as both bases are. *)
Definition with_suffix (path suffix : string) : string := path +:+ suffix.

Definition is_file_based_operator (operator : string) : bool :=
  Py.contains operator [SEPARATOR_FILE_UPLOAD].

Definition BASE_FUNCTIONS : gmap string value :=
  {[ "is_file_based_operator" := Predicate is_file_based_operator ]}.

(** Lines 74-80: the arguments of all groups, in order, that are neither
    hidden nor positional. *)
Definition visible_arguments (spec : ParserSpec) : list Argument :=
  group ← groups spec;
  filter (λ argument,
            negb (is_hidden argument) && negb (is_positional argument))
         (arguments group).

Definition prepare_objects (spec : ParserSpec)
  : result (gmap string value) :=
  let global_objects := BASE_FUNCTIONS in
  request_items ← find_argument_by_target_name spec "REQUEST_ITEM";
  let global_objects :=
    <["request_items" := AnArgument request_items]> global_objects in
  let global_objects :=
    <["arguments" := ArgumentList (visible_arguments spec)]> global_objects in
  let global_objects :=
    <["methods" := StringList COMMON_HTTP_METHODS]> global_objects in
  let global_objects :=
    <["generate_flow" := External "generate_flow"]> global_objects in
  OK global_objects.

Definition zsh_completer (spec : ParserSpec) : result (gmap string value) :=
  compile_zsh ← compile_zsh;
  OK (<["escape_zsh" := Escaper escape_zsh]>
        (<["serialize_argument_to_zsh" :=
             Serializer serialize_argument_to_zsh]>
           {[ "compile_zsh" := compile_zsh ]})).

Definition fish_completer (spec : ParserSpec) : result (gmap string value) :=
  OK {[ "serialize_argument_to_fish" :=
          Serializer serialize_argument_to_fish ]}.

(** Lines 44-49: the two paths of a shell. *)
Definition template_file (shell_type : string) : string :=
  with_suffix COMPLETION_TEMPLATE_BASE ("." +:+ shell_type +:+ ".j2").
Definition compiletion_script_file (shell_type : string) : string :=
  with_suffix COMPLETION_SCRIPT_BASE ("." +:+ shell_type).

(** The text that [wrapper] writes: lines 51-55. *)
Definition rendered (shell_type : string)
    (func : ParserSpec → result (gmap string value)) (spec : ParserSpec)
    (w : world) : result string :=
  text ← read_text w (template_file shell_type);
  jinja_template ← Template text;
  global_objects ← prepare_objects spec;
  extra_variables ← func spec;
  render jinja_template global_objects extra_variables.

(** The [wrapper] that [use_template(shell_type)] puts around [func]: the
    text is made, then written; an exception of either step leaves the world
    as it was. *)
Definition wrapper (shell_type : string)
    (func : ParserSpec → result (gmap string value)) (spec : ParserSpec)
    (w : world) : result () * world :=
  match
    script ← rendered shell_type func spec w;
    write_text w (compiletion_script_file shell_type) script
  with
  | OK w => (OK (), w)
  | Raise e => (Raise e, w)
  end.

(** The registration table after the module is loaded: a [dict] keeps its
    keys in insertion order, and the decorators run top to bottom. *)
Definition COMPLETERS
  : list (string * (ParserSpec → world → result () * world)) :=
  [("zsh", wrapper "zsh" zsh_completer);
   ("fish", wrapper "fish" fish_completer)].

(** Line 218: the line printed before a completer runs. *)
Definition announce (shell_type : string) : string :=
  "Generating " +:+ shell_type +:+ " completer.".

(** The loop of [main]; an uncaught exception ends it. *)
Fixpoint run_completers
    (completers : list (string * (ParserSpec → world → result () * world)))
    (options : ParserSpec) (w : world) : result () * world :=
  match completers with
  | [] => (OK (), w)
  | (shell_type, completer) :: rest =>
      let w := print w (announce shell_type) in
      match completer options w with
      | (OK _, w) => run_completers rest options w
      | (Raise e, w) => (Raise e, w)
      end
  end.

Definition main (options : ParserSpec) (w : world) : result () * world :=
  run_completers COMPLETERS options w.

(** Where a run leaves the world, given the two rendered texts. *)
Definition outcome (zsh fish : result string) (w : world)
  : result () * world :=
  let w := print w (announce "zsh") in
  match (zsh ≫= write_text w (compiletion_script_file "zsh")) with
  | Raise e => (Raise e, w)
  | OK w =>
      let w := print w (announce "fish") in
      match (fish ≫= write_text w (compiletion_script_file "fish")) with
      | Raise e => (Raise e, w)
      | OK w => (OK (), w)
      end
  end.

End Pipeline.

(** ** Vocabulary of the properties *)

(** [all_escaped c b s]: every [c] in [s] comes right after a backslash,
    [b] telling whether a backslash comes right before [s]. *)
Fixpoint all_escaped (c : ascii) (b : bool) (s : string) : bool :=
  match s with
  | EmptyString => true
  | String d s' =>
      (if Ascii.eqb d c then b else true)
      && all_escaped c (Ascii.eqb d "\") s'
  end.

(** [occurs c s]: the character [c] is somewhere in [s]. *)
Fixpoint occurs (c : ascii) (s : string) : bool :=
  match s with
  | EmptyString => false
  | String d s' => Ascii.eqb d c || occurs c s'
  end.

(** The arguments of a specification in the order the loops visit them. *)
Definition all_arguments (spec : ParserSpec) : list Argument :=
  group ← groups spec; arguments group.

(** [name] is one of the targets of [argument]: one of its aliases when it
    has any, its metavar otherwise. *)
Definition names (name : string) (argument : Argument) : Prop :=
  match aliases argument with
  | [] => metavar (configuration argument) = Some name
  | _ :: _ => name ∈ aliases argument
  end.

(** The first of the entries of maximal length: what [max(xs, key=len)]
    picks. *)
Definition first_longest (x : string) (xs : list string) : Prop :=
  ∃ before after,
    xs = before ++ x :: after
    ∧ Forall (λ y, String.length y < String.length x) before
    ∧ Forall (λ y, String.length y ≤ String.length x) after.

(** What follows the place of the alias inside the quotes: the [=] of an
    argument that takes a value, the help between brackets, the metavar
    segment and the choices. *)
Definition zsh_body (flag : bool) (help : string) (m : option string)
    (cs : option (list string)) : string :=
  (if flag then "" else "=") +:+ "[" +:+ help +:+ "]"
  +:+ Py.join "" (zsh_metavar_segment m)
  +:+ Py.join "" (zsh_choices_segment cs).

(** [unescape c s]: [s] without the backslash that stands right before a
    [c]. *)
Fixpoint unescape (c : ascii) (s : string) : string :=
  match s with
  | EmptyString => EmptyString
  | String d s' =>
      match s' with
      | EmptyString => String d EmptyString
      | String e s'' =>
          if Ascii.eqb d "\" && Ascii.eqb e c then String e (unescape c s'')
          else String d (unescape c s')
      end
  end.

(** [count c s]: how many times [c] is in [s]. *)
Fixpoint count (c : ascii) (s : string) : nat :=
  match s with
  | EmptyString => 0
  | String d s' => (if Ascii.eqb d c then 1 else 0) + count c s'
  end.

(** [only c s]: [s] is made of the character [c] alone. *)
Fixpoint only (c : ascii) (s : string) : bool :=
  match s with
  | EmptyString => true
  | String d s' => Ascii.eqb d c && only c s'
  end.

(** [has_lower s]: one of the letters [a]..[z] is in [s]. *)
Fixpoint has_lower (s : string) : bool :=
  match s with
  | EmptyString => false
  | String d s' =>
      ((97 <=? nat_of_ascii d) && (nat_of_ascii d <=? 122))%nat
      || has_lower s'
  end.

Definition starts_with (c : ascii) (s : string) : bool :=
  match s with
  | EmptyString => false
  | String d _ => Ascii.eqb d c
  end.

Fixpoint ends_with (c : ascii) (s : string) : bool :=
  match s with
  | EmptyString => false
  | String d EmptyString => Ascii.eqb d c
  | String _ s' => ends_with c s'
  end.

(** [s.split(sep)] for a one-character separator: the pieces between the
    separators, the empty ones too. *)
Fixpoint split (sep : ascii) (s : string) : list string :=
  match s with
  | EmptyString => [EmptyString]
  | String c s' =>
      if Ascii.eqb c sep then EmptyString :: split sep s'
      else
        match split sep s' with
        | [] => [String c EmptyString]
        | piece :: pieces => String c piece :: pieces
        end
  end.

(** [is_ascii s]: every character of [s] is below 128. *)
Fixpoint is_ascii (s : string) : bool :=
  match s with
  | EmptyString => true
  | String c s' => (nat_of_ascii c <? 128)%nat && is_ascii s'
  end.

(** Python's exception hierarchy, as far as the classes of [exn] go:
    [LookupError] is the base class of [IndexError] and [KeyError], and
    [ValueError] and [OSError] are not below it. *)
Definition is_LookupError (e : exn) : bool :=
  match e with
  | IndexError => true
  | Foreign class =>
      bool_decide (class = "LookupError") || bool_decide (class = "KeyError")
  | ValueError _ | OSError => false
  end.

(** [prefix_of p s]: [s] starts with [p]; [infix_of p s]: [p] is somewhere
    in [s]. *)
Fixpoint prefix_of (p s : string) : bool :=
  match p, s with
  | EmptyString, _ => true
  | String a p', String b s' => Ascii.eqb a b && prefix_of p' s'
  | String _ _, EmptyString => false
  end.

Fixpoint infix_of (p s : string) : bool :=
  prefix_of p s
  || match s with
     | EmptyString => false
     | String _ s' => infix_of p s'
     end.

(** ** More sample arguments and a sample run *)

Definition plain_argument : Argument :=
  option_argument ["F"; "FORMAT"] false "Format"
    {| metavar := None; choices := Some ["json"; "xml"];
       lazy_choices := None |}.

Definition request_item_argument : Argument :=
  {| aliases := []; is_flag := false; is_positional := true;
     is_hidden := false; short_help := "Request items";
     configuration :=
       {| metavar := Some "REQUEST_ITEM"; choices := None;
          lazy_choices := None |} |}.

Definition style_argument : Argument :=
  option_argument ["--style"] false "Style"
    {| metavar := Some ""; choices := Some ["auto"; "solarized"];
       lazy_choices := None |}.

Definition dashes_argument : Argument :=
  option_argument ["--"] false "Rest"
    {| metavar := None; choices := Some ["a"; "b"]; lazy_choices := None |}.

Definition tabbed_argument : Argument :=
  option_argument ["--json"] false "Output format"
    {| metavar := Some (String Py.tab "FORMAT "); choices := None;
       lazy_choices := None |}.

Definition sample_options : ParserSpec :=
  {| groups :=
       [ {| arguments := [request_item_argument; help_argument] |};
         {| arguments := [output_argument; format_argument] |} ] |}.

(** A stand-in for the template engine: the template text, then one line per
    visible argument, made by the serializer the completer hands over. *)
Definition sample_render (text : string) (global_objects extra : gmap string value)
  : result string :=
  match global_objects !! "arguments",
        extra !! "serialize_argument_to_zsh",
        extra !! "serialize_argument_to_fish" with
  | Some (ArgumentList args), Some (Serializer f), _
  | Some (ArgumentList args), None, Some (Serializer f) =>
      lines ← mapM f args;
      OK (text +:+ Py.join (Py.str (ascii_of_nat 10)) lines)
  | _, _, _ => Raise (ValueError None)
  end.

(** A stand-in for a template engine that fails on the fish template. *)
Definition zsh_only_render (text : string)
    (global_objects extra : gmap string value) : result string :=
  match extra !! "serialize_argument_to_zsh" with
  | Some _ => OK text
  | None => Raise (Foreign "TemplateSyntaxError")
  end.

Definition sample_world : world :=
  {| files :=
       {[ "extras/completion/templates/completion.zsh.j2" := "#compdef http ";
          "extras/completion/templates/completion.fish.j2" := "" ]};
     unwritable := ∅;
     stdout := [] |}.

(** The same world with the directory of the scripts closed to writing. *)
Definition locked_world : world :=
  {| files := files sample_world;
     unwritable :=
       {[ "extras/completion/completion.zsh";
          "extras/completion/completion.fish" ]};
     stdout := [] |}.

Definition empty_world : world :=
  {| files := ∅; unwritable := ∅; stdout := [] |}.

Definition sample_main : ParserSpec → world → result () * world :=
  main "extras" "@" string OK sample_render (OK (External "compile_zsh")).

(** The driver with an engine that returns the template text as it is, and
    with one that fails on the fish template. *)
Definition echo_main : ParserSpec → world → result () * world :=
  main "extras" "@" string OK (λ text _ _, OK text)
    (OK (External "compile_zsh")).

Definition zsh_only_main : ParserSpec → world → result () * world :=
  main "extras" "@" string OK zsh_only_render (OK (External "compile_zsh")).

(** * Properties *)

(** ** The samples of the specification *)

Example zsh_help : serialize_argument_to_zsh help_argument
  = OK "{-h,--help}'[Show help]'".
Proof. reflexivity. Qed.

Example zsh_json : serialize_argument_to_zsh json_argument
  = OK "'--json=[Output format]:FORMAT:'".
Proof. reflexivity. Qed.

Example zsh_format : serialize_argument_to_zsh format_argument
  = OK "{-o,--output-format}'=[Format]:OUTPUT_FORMAT:(json xml)'".
Proof. reflexivity. Qed.

(** ** Strings *)

Example join_three : Py.join "," ["-a"; "-b"; "-c"] = "-a,-b,-c".
Proof. reflexivity. Qed.

Example strip_both_ends : Py.strip " " "  FILE NAME " = "FILE NAME".
Proof. reflexivity. Qed.

Example lstrip_dashes : Py.lstrip "-" "--output-format" = "output-format".
Proof. reflexivity. Qed.

Example upper_letters : Py.upper "output_format2" = "OUTPUT_FORMAT2".
Proof. reflexivity. Qed.

Example max_len_first_of_ties :
  Py.max_len ["-c"; "--ab"; "--de"; "-f"] = OK "--ab".
Proof. reflexivity. Qed.

Example unpack_three : Py.unpack2 ["-a"; "-b"; "-c"] = Raise (ValueError None).
Proof. reflexivity. Qed.

Section StringFacts.

Lemma append_nil_r (s : string) : s +:+ "" = s.
Proof. induction s as [|c s IH]; simpl; [done | by rewrite IH]. Qed.

Lemma append_assoc (s t u : string) : (s +:+ t) +:+ u = s +:+ t +:+ u.
Proof. induction s as [|c s IH]; simpl; [done | by rewrite IH]. Qed.

Lemma append_inj_l (s t u : string) : s +:+ t = s +:+ u → t = u.
Proof. induction s as [|c s IH]; simpl; [done | intros [=]; auto]. Qed.

(** Joining with the empty separator is concatenation. *)
Lemma join_empty_cons (p : string) (ps : list string) :
  Py.join "" (p :: ps) = p +:+ Py.join "" ps.
Proof. destruct ps; simpl; [by rewrite append_nil_r | done]. Qed.

Lemma join_empty_app (ps qs : list string) :
  Py.join "" (ps ++ qs) = Py.join "" ps +:+ Py.join "" qs.
Proof.
  induction ps as [|p ps IH]; [done |].
  rewrite <- app_comm_cons, !join_empty_cons, IH.
  by rewrite append_assoc.
Qed.

Lemma replace_all_escaped (c : ascii) (s : string) (b : bool) :
  c ≠ "\"%char →
  all_escaped c b (Py.replace c (String "\" (Py.str c)) s) = true.
Proof.
  intros Hc. revert b. induction s as [|d s IH]; intros b; [done |].
  simpl. destruct (Ascii.eqb d c) eqn:Hd.
  - simpl. rewrite Ascii.eqb_refl.
    destruct (Ascii.eqb "\" c) eqn:Hbc.
    + apply Ascii.eqb_eq in Hbc. congruence.
    + simpl. apply IH.
  - simpl. rewrite Hd. simpl. apply IH.
Qed.

(** A string free of [c] is left alone by [replace]. *)
Lemma replace_absent (c : ascii) (new s : string) :
  occurs c s = false → Py.replace c new s = s.
Proof.
  induction s as [|d s IH]; simpl; [done |].
  destruct (Ascii.eqb d c); simpl; [done |].
  intros H. by rewrite IH.
Qed.

(** [replace] works on each character on its own. *)
Lemma replace_append (c : ascii) (new s t : string) :
  Py.replace c new (s +:+ t) = Py.replace c new s +:+ Py.replace c new t.
Proof.
  induction s as [|d s IH]; simpl; [done |].
  destruct (Ascii.eqb d c); rewrite IH; [by rewrite append_assoc | done].
Qed.

Lemma contains_elem_of `{EqDecision A} (x : A) (xs : list A) :
  Py.contains x xs = true ↔ x ∈ xs.
Proof.
  unfold Py.contains. rewrite existsb_exists. split.
  - intros (y & Hy & Heq). apply bool_decide_eq_true in Heq. subst.
    by apply list_elem_of_In.
  - intros Hx. exists x. split; [by apply list_elem_of_In |].
    by apply bool_decide_eq_true.
Qed.

End StringFacts.

(** Brings nested appends to the right-nested form. *)
Ltac string_normalize :=
  repeat first
    [ rewrite append_assoc | rewrite append_nil_r | progress simpl ].

(** ** Argument lookup *)

Lemma is_target_names (name : string) (argument : Argument) :
  is_target name argument = true ↔ names name argument.
Proof.
  unfold is_target, names, targets. rewrite contains_elem_of.
  destruct (aliases argument) as [|a l].
  - rewrite list_elem_of_singleton. split; congruence.
  - rewrite list_elem_of_fmap. split.
    + intros (y & [= ->] & Hy). done.
    + intros H. by exists name.
Qed.

Lemma find_in_groups_flat (gs : list ArgumentGroup) (name : string) :
  find_in_groups gs name
  = find_in_arguments (group ← gs; arguments group) name.
Proof.
  induction gs as [|g gs IH]; [done |].
  simpl. rewrite IH. clear IH.
  induction (arguments g) as [|a l IHl]; [done |].
  simpl. by destruct (is_target name a).
Qed.

Lemma find_in_arguments_Some (args : list Argument) (name : string)
    (argument : Argument) :
  find_in_arguments args name = Some argument ↔
  ∃ before after,
    args = before ++ argument :: after
    ∧ names name argument
    ∧ ∀ other, other ∈ before → ¬ names name other.
Proof.
  induction args as [|a l IH]; simpl.
  - split; [done |]. intros (before & after & H & _). by destruct before.
  - destruct (is_target name a) eqn:Ha.
    + split.
      * intros [= ->]. exists [], l. split_and!; [done | | ].
        -- by apply is_target_names.
        -- intros other Hin. by apply elem_of_nil in Hin.
      * intros (before & after & Heq & Hn & Hfirst).
        destruct before as [|b before]; simpl in Heq.
        -- congruence.
        -- injection Heq as -> _. exfalso.
           apply (Hfirst b); [left |]. by apply is_target_names.
    + rewrite IH. split.
      * intros (before & after & -> & Hn & Hfirst).
        exists (a :: before), after. split_and!; [done | done |].
        intros other [-> | Hin]%elem_of_cons; [| by apply Hfirst].
        rewrite <- is_target_names. congruence.
      * intros (before & after & Heq & Hn & Hfirst).
        destruct before as [|b before]; simpl in Heq.
        -- injection Heq as -> _. apply is_target_names in Hn. congruence.
        -- injection Heq as -> ->. exists before, after.
           split_and!; [done | done |].
           intros other Hin. apply Hfirst. by right.
Qed.

Lemma find_in_arguments_None (args : list Argument) (name : string) :
  find_in_arguments args name = None ↔
  ∀ argument, argument ∈ args → ¬ names name argument.
Proof.
  induction args as [|a l IH]; simpl.
  - split; [| done]. intros _ x Hx. by apply elem_of_nil in Hx.
  - destruct (is_target name a) eqn:Ha.
    + split; [done |]. intros H. exfalso.
      apply (H a); [left |]. by apply is_target_names.
    + rewrite IH. split.
      * intros H x [-> | Hx]%elem_of_cons; [| by apply H].
        rewrite <- is_target_names. congruence.
      * intros H x Hx. apply H. by right.
Qed.

(** C1, as the specification gives it: a lookup that finds nothing raises
    a [LookupError].  No argument of the sample has the target [URL], and the
    lookup raises no [LookupError]: line 195 raises a [ValueError], which is
    not one. *)
Lemma find_argument_by_target_name_no_LookupError :
  (∀ argument, argument ∈ all_arguments sample_options →
               ¬ names "URL" argument)
  ∧ ¬ ∃ e, find_argument_by_target_name sample_options "URL" = Raise e
           ∧ is_LookupError e = true.
Proof.
  split.
  - apply find_in_arguments_None. reflexivity.
  - intros (e & He & Hlookup). vm_compute in He.
    injection He as <-. discriminate Hlookup.
Qed.

(** C1, amended. [find_argument_by_target_name] returns the first argument,
    in the
    order groups and their arguments are scanned, one of whose targets is the
    name (its aliases when it has any, its metavar otherwise); it fails, with
    the [ValueError] built on line 195, exactly when no argument has the
    name among its targets, and it fails in no other way. *)
Theorem find_argument_by_target_name_first_match
    (spec : ParserSpec) (name : string) :
  (∀ argument,
     find_argument_by_target_name spec name = OK argument ↔
     ∃ before after,
       all_arguments spec = before ++ argument :: after
       ∧ names name argument
       ∧ ∀ other, other ∈ before → ¬ names name other)
  ∧ (find_argument_by_target_name spec name
       = Raise (ValueError (Some ("Could not find argument with name " +:+ name)))
     ↔ ∀ argument, argument ∈ all_arguments spec → ¬ names name argument)
  ∧ (∀ e, find_argument_by_target_name spec name = Raise e →
          e = ValueError (Some ("Could not find argument with name " +:+ name))).
Proof.
  unfold find_argument_by_target_name, all_arguments.
  rewrite find_in_groups_flat.
  destruct (find_in_arguments _ name) as [found|] eqn:Hfind.
  - split_and!.
    + intros argument. rewrite <- find_in_arguments_Some, Hfind.
      split; congruence.
    + rewrite <- find_in_arguments_None, Hfind. split; congruence.
    + intros e [=].
  - split_and!.
    + intros argument. rewrite <- find_in_arguments_Some, Hfind.
      split; congruence.
    + rewrite <- find_in_arguments_None, Hfind. done.
    + by intros e [= <-].
Qed.

(** ** Fish serializer *)

(** The declaration of [output_argument] with the dashes of both spellings
    removed, as the format of fish has it.  The serializer does not return
    it. *)
Lemma fish_output_argument_not_dashless :
  serialize_argument_to_fish output_argument
  ≠ OK (Py.join (Py.str Py.tab)
          ["complete"; "-c"; "http"; "-s"; "o"; "-l"; "output"; "-d";
           "'Write to \'file\''"]).
Proof. vm_compute. intros [=]. Qed.

(** C2.  For the argument with aliases [-o] and [--output] that takes a
    value and whose help is [Write to 'file'], the fish serializer returns
    the tab-joined tokens [complete -c http -s -o -l --output -d
    'Write to \'file\'']: each spelling follows its [-s] or [-l] token as it
    is written in the aliases, dashes included, and so it is for every
    argument with two aliases whose first is not empty; the format of fish
    that lines 150-151 point to takes both names without their dashes. *)
Theorem fish_output_argument_verbatim :
  serialize_argument_to_fish output_argument
  = OK (Py.join (Py.str Py.tab)
          ["complete"; "-c"; "http"; "-s"; "-o"; "-l"; "--output"; "-d";
           "'Write to \'file\''"])
  ∧ ∀ (c : ascii) (short long : string) (flag : bool) (help : string)
      (cfg : Configuration),
      fish_declaration (option_argument [String c short; long] flag help cfg)
      = OK (["complete"; "-c"; "http"; "-s"; String c short; "-l"; long]
              ++ fish_choices cfg ++ fish_description help).
Proof. split; [by vm_compute | done]. Qed.

(** The fish serializer fails on every alias list that has neither one nor
    two entries: the handler of the first unpacking unpacks again. *)
Lemma fish_aliases_raise (argument : Argument) :
  length (aliases argument) ≠ 1 → length (aliases argument) ≠ 2 →
  fish_aliases argument = Raise (ValueError None).
Proof.
  unfold fish_aliases.
  destruct (aliases argument) as [|a [|b [|c l]]]; simpl; done.
Qed.

(** C7. On an argument with more than two aliases the fish serializer
    raises: the two-slot unpacking fails with [ValueError], and so does the
    one-slot unpacking in its handler, which nothing catches. *)
Theorem fish_more_than_two_aliases_raises (argument : Argument) :
  2 < length (aliases argument) →
  serialize_argument_to_fish argument = Raise (ValueError None).
Proof.
  intros Hlen. unfold serialize_argument_to_fish, fish_declaration.
  rewrite fish_aliases_raise; [done | lia | lia].
Qed.

Lemma fish_more_than_two_aliases_raises_witness :
  2 < length (aliases (option_argument ["-v"; "--verbose"; "--chatty"] true
                         "Verbose" no_configuration))
  ∧ serialize_argument_to_fish
      (option_argument ["-v"; "--verbose"; "--chatty"] true "Verbose"
         no_configuration)
    = Raise (ValueError None).
Proof.
  split; [simpl; lia |].
  apply fish_more_than_two_aliases_raises. simpl. lia.
Defined.

(** C8. Whenever the fish serializer returns, the declaration is the
    tab-joined list that starts with [complete], [-c], [http] and ends with
    [-d] and the help text between single quotes, in which every single quote
    of the help text has become backslash-quote, so that each quote inside
    comes right after a backslash. *)
Theorem fish_declaration_shape (argument : Argument) (out : string) :
  serialize_argument_to_fish argument = OK out →
  ∃ middle quoted,
    out = Py.join (Py.str Py.tab)
            (["complete"; "-c"; "http"] ++ middle
               ++ ["-d"; "'" +:+ quoted +:+ "'"])
    ∧ quoted = Py.replace "'" "\'" (short_help argument)
    ∧ all_escaped "'" false quoted = true.
Proof.
  unfold serialize_argument_to_fish, fish_declaration.
  destruct (fish_aliases argument) as [[short_form long_form]|e]; simpl;
    [| done].
  intros [= <-].
  exists (fish_short short_form ++ ["-l"; long_form]
            ++ fish_choices (configuration argument)), 
         (Py.replace "'" "\'" (short_help argument)).
  split_and!.
  - unfold fish_description. by rewrite <- !app_assoc.
  - done.
  - by apply (replace_all_escaped "'").
Qed.

Lemma fish_declaration_shape_witness :
  ∃ middle quoted,
    Py.join (Py.str Py.tab)
      ["complete"; "-c"; "http"; "-s"; "-o"; "-l"; "--output"; "-d";
       "'Write to \'file\''"]
    = Py.join (Py.str Py.tab)
        (["complete"; "-c"; "http"] ++ middle
           ++ ["-d"; "'" +:+ quoted +:+ "'"])
    ∧ quoted = Py.replace "'" "\'" (short_help output_argument)
    ∧ all_escaped "'" false quoted = true.
Proof.
  apply (fish_declaration_shape output_argument). reflexivity.
Defined.

(** ** Zsh serializer *)

Lemma max_len_from_first_longest (best : string) (xs : list string) :
  first_longest (Py.max_len_from best xs) (best :: xs).
Proof.
  revert best. induction xs as [|x xs IH]; intros best; simpl.
  - exists [], []. by split_and!.
  - destruct (Nat.ltb_spec (String.length best) (String.length x)) as [Hlt|Hge].
    + specialize (IH x). remember (Py.max_len_from x xs) as r eqn:Hr.
      clear Hr. destruct IH as (before & after & Heq & Hb & Ha).
      exists (best :: before), after. split_and!; [by rewrite Heq | | done].
      constructor; [| done].
      destruct before as [|b before]; simpl in Heq.
      * injection Heq as -> _. done.
      * injection Heq as <- _. apply Forall_cons in Hb as [Hb _]. lia.
    + specialize (IH best). remember (Py.max_len_from best xs) as r eqn:Hr.
      clear Hr. destruct IH as (before & after & Heq & Hb & Ha).
      destruct before as [|b before]; simpl in Heq.
      * injection Heq as -> ->. exists [], (x :: after).
        split_and!; [done | done |].
        constructor; [lia | done].
      * injection Heq as <- ->.
        apply Forall_cons in Hb as [Hbest Hb].
        exists (best :: x :: before), after. split_and!; [done | | done].
        repeat constructor; [done | lia | done].
Qed.

Lemma zsh_metavar_total (argument : Argument) :
  aliases argument ≠ [] → ∃ m, zsh_metavar argument = OK m.
Proof.
  intros Hne. unfold zsh_metavar.
  destruct (metavar _); [by eexists |].
  destruct (choices _); [| by eexists].
  destruct (aliases argument); [done | by eexists].
Qed.

Lemma zsh_declaration_body (argument : Argument) (prefix : string)
    (start : list string) (m : option string) :
  zsh_aliases argument = OK (prefix, start) →
  zsh_metavar argument = OK m →
  serialize_argument_to_zsh argument
  = OK (prefix +:+ "'"
          +:+ (Py.join "" start
                 +:+ zsh_body (is_flag argument) (short_help argument) m
                       (choices (configuration argument)))
          +:+ "'").
Proof.
  intros Ha Hm. unfold serialize_argument_to_zsh, zsh_declaration.
  rewrite Ha. simpl. rewrite Hm. simpl. unfold zsh_body.
  do 3 f_equal.
  destruct (is_flag argument); simpl;
    rewrite !join_empty_app; by string_normalize.
Qed.

(** C4, as the specification gives it: with two or more aliases no alias
    text is inside the quoted body.  For the aliases [F] and [FORMAT] with
    choices and no configured metavar, the metavar derived from the longest
    alias is [FORMAT], and the alias is read inside the quotes. *)
Lemma zsh_alias_text_inside_body :
  serialize_argument_to_zsh plain_argument
  = OK ("{F,FORMAT}" +:+ "'" +:+ "=[Format]:FORMAT:(json xml)" +:+ "'")
  ∧ infix_of "FORMAT" "=[Format]:FORMAT:(json xml)" = true
  ∧ "FORMAT" ∈ aliases plain_argument.
Proof. split_and!; [by vm_compute | by vm_compute | by right; left]. Qed.

(** C4, amended. With exactly one alias, the alias stands right after the
    opening quote and nothing stands before the quote; with two or more, the
    declaration starts with the comma-joined aliases between braces, and what
    is between the quotes is [zsh_body]: the [=] of an argument that takes a
    value, the help, the metavar segment and the choices, with no alias put
    there as such.  The help flag gives [{-h,--help}'[Show help]']. *)
Theorem zsh_alias_placement (argument : Argument) :
  (∀ alias, aliases argument = [alias] →
     ∃ m, zsh_metavar argument = OK m
          ∧ serialize_argument_to_zsh argument
            = OK ("'"
                    +:+ (alias
                           +:+ zsh_body (is_flag argument)
                                 (short_help argument) m
                                 (choices (configuration argument)))
                    +:+ "'"))
  ∧ (∀ first second more, aliases argument = first :: second :: more →
       ∃ m, zsh_metavar argument = OK m
            ∧ serialize_argument_to_zsh argument
              = OK (("{" +:+ Py.join "," (aliases argument) +:+ "}")
                      +:+ "'"
                      +:+ zsh_body (is_flag argument) (short_help argument) m
                            (choices (configuration argument))
                      +:+ "'"))
  ∧ serialize_argument_to_zsh help_argument = OK "{-h,--help}'[Show help]'".
Proof.
  split_and!; [| | done].
  - intros alias Hal.
    destruct (zsh_metavar_total argument) as [m Hm]; [by rewrite Hal |].
    exists m. split; [done |].
    rewrite (zsh_declaration_body argument "" [alias] m); [done | | done].
    unfold zsh_aliases. by rewrite Hal.
  - intros first second more Hal.
    destruct (zsh_metavar_total argument) as [m Hm]; [by rewrite Hal |].
    exists m. split; [done |].
    rewrite (zsh_declaration_body argument
               ("{" +:+ Py.join "," (aliases argument) +:+ "}") [] m);
      [done | | done].
    unfold zsh_aliases. by rewrite Hal.
Qed.

Lemma zsh_alias_placement_witness :
  (∃ m, zsh_metavar json_argument = OK m
        ∧ serialize_argument_to_zsh json_argument
          = OK ("'"
                  +:+ ("--json" +:+ zsh_body false "Output format" m None)
                  +:+ "'"))
  ∧ (∃ m, zsh_metavar format_argument = OK m
          ∧ serialize_argument_to_zsh format_argument
            = OK ("{-o,--output-format}" +:+ "'"
                    +:+ zsh_body false "Format" m (Some ["json"; "xml"])
                    +:+ "'")).
Proof.
  split.
  - apply (proj1 (zsh_alias_placement json_argument) "--json"). reflexivity.
  - apply (proj1 (proj2 (zsh_alias_placement format_argument))
             "-o" "--output-format" []).
    reflexivity.
Defined.

(** C5. A metavar in the configuration is the one that is used.  Without
    one, and with choices, the metavar comes from the first of the longest
    aliases: its leading dashes are stripped, the dashes that remain become
    underscores, and the letters are put in upper case; [-o] and
    [--output-format] give [OUTPUT_FORMAT].  The derivation is stated for
    ASCII aliases, on which the model of [len] and [upper] is the one of
    Python. *)
Theorem zsh_metavar_derivation (argument : Argument) :
  (∀ m, metavar (configuration argument) = Some m →
        zsh_metavar argument = OK (Some m))
  ∧ (∀ cs, metavar (configuration argument) = None →
           choices (configuration argument) = Some cs →
           aliases argument ≠ [] →
           Forall (λ alias, is_ascii alias = true) (aliases argument) →
           ∃ longest,
             first_longest longest (aliases argument)
             ∧ zsh_metavar argument
               = OK (Some (Py.upper
                             (Py.replace "-" "_" (Py.lstrip "-" longest)))))
  ∧ zsh_metavar format_argument = OK (Some "OUTPUT_FORMAT")
  ∧ serialize_argument_to_zsh format_argument
    = OK "{-o,--output-format}'=[Format]:OUTPUT_FORMAT:(json xml)'".
Proof.
  split_and!; [| | done | done].
  - intros m Hm. unfold zsh_metavar. by rewrite Hm.
  - intros cs Hm Hcs Hne _. unfold zsh_metavar. rewrite Hm, Hcs.
    destruct (aliases argument) as [|a l]; [done |].
    exists (Py.max_len_from a l). split; [| done].
    apply max_len_from_first_longest.
Qed.

Lemma zsh_metavar_derivation_witness :
  zsh_metavar json_argument = OK (Some "FORMAT")
  ∧ ∃ longest,
      first_longest longest ["-o"; "--output-format"]
      ∧ zsh_metavar format_argument
        = OK (Some (Py.upper (Py.replace "-" "_" (Py.lstrip "-" longest)))).
Proof.
  split.
  - apply (proj1 (zsh_metavar_derivation json_argument)). reflexivity.
  - apply (proj1 (proj2 (zsh_metavar_derivation format_argument))
             ["json"; "xml"]);
      [reflexivity | reflexivity | discriminate | by repeat constructor].
Defined.

(** C10. On an argument without aliases the zsh serializer raises
    [IndexError], at the read of [aliases[0]]; the maximum that the metavar
    derivation takes when there are choices and no metavar is undefined as
    well ([max] of an empty list raises).  With at least one alias the
    serializer returns a declaration. *)
Theorem zsh_requires_an_alias (argument : Argument) :
  (aliases argument = [] →
     zsh_aliases argument = Raise IndexError
     ∧ serialize_argument_to_zsh argument = Raise IndexError
     ∧ Py.max_len (aliases argument) = Raise (ValueError None)
     ∧ (metavar (configuration argument) = None →
        is_Some (choices (configuration argument)) →
        zsh_metavar argument = Raise (ValueError None)))
  ∧ (aliases argument ≠ [] →
     ∃ out, serialize_argument_to_zsh argument = OK out).
Proof.
  split.
  - intros Hal.
    unfold serialize_argument_to_zsh, zsh_declaration, zsh_aliases, zsh_metavar.
    rewrite Hal. split_and!; [done | done | done |].
    intros -> [cs ->]. done.
  - intros Hne.
    destruct (zsh_metavar_total argument Hne) as [m Hm].
    destruct (zsh_aliases argument) as [[prefix start]|e] eqn:Ha.
    + eexists. by apply zsh_declaration_body.
    + exfalso. unfold zsh_aliases in Ha.
      destruct (aliases argument) as [|a [|b l]]; simpl in Ha; done.
Qed.

Lemma zsh_requires_an_alias_witness :
  serialize_argument_to_zsh request_item_argument = Raise IndexError
  ∧ ∃ out, serialize_argument_to_zsh help_argument = OK out.
Proof.
  split.
  - apply (proj1 (zsh_requires_an_alias request_item_argument)). reflexivity.
  - apply (proj2 (zsh_requires_an_alias help_argument)). discriminate.
Defined.

(** The choices come right after the metavar segment whenever the metavar
    that was resolved is a non-empty string. *)
Lemma zsh_choices_follow_metavar (argument : Argument) (prefix : string)
    (declaration : list string) (m : string) (cs : list string) :
  zsh_declaration argument = OK (prefix, declaration) →
  zsh_metavar argument = OK (Some m) →
  Py.truthy m = true →
  choices (configuration argument) = Some cs →
  ∃ start,
    declaration
    = start ++ [":" +:+ escape_zsh (Py.strip " " m) +:+ ":";
                "(" +:+ Py.join " " cs +:+ ")"].
Proof.
  unfold zsh_declaration. intros Hd Hm Ht Hcs.
  destruct (zsh_aliases argument) as [[p start]|e]; simpl in Hd; [| done].
  rewrite Hm in Hd. simpl in Hd. rewrite Ht, Hcs in Hd. simpl in Hd.
  injection Hd as _ <-. rewrite <- app_assoc. simpl. by eexists.
Qed.

(** C3. The choices are appended under [if has_choices:] alone.  An argument
    with choices whose metavar is the empty string, be it configured so or
    derived from an alias made of dashes only, gets its choices and no
    metavar segment before them. *)
Theorem zsh_choices_without_metavar_segment :
  zsh_declaration style_argument
  = OK ("", ["--style"; "="; "[Style]"; "(auto solarized)"])
  ∧ serialize_argument_to_zsh style_argument
    = OK "'--style=[Style](auto solarized)'"
  ∧ zsh_metavar dashes_argument = OK (Some "")
  ∧ serialize_argument_to_zsh dashes_argument = OK "'--=[Rest](a b)'".
Proof. by vm_compute. Qed.

(** [escape_zsh] puts a backslash before each colon and changes nothing
    else. *)
Lemma escape_zsh_colon : escape_zsh ":" = "\:".
Proof. reflexivity. Qed.

Lemma escape_zsh_all_escaped (text : string) (b : bool) :
  all_escaped ":" b (escape_zsh text) = true.
Proof. by apply (replace_all_escaped ":"). Qed.

Lemma escape_zsh_no_colon (text : string) :
  occurs ":" text = false → escape_zsh text = text.
Proof. apply replace_absent. Qed.

(** [lstrip] removes the leading run of the character and nothing more. *)
Lemma lstrip_spec (c : ascii) (s : string) :
  ∃ n, s = string_of_list_ascii (repeat c n) +:+ Py.lstrip c s
       ∧ ∀ d t, Py.lstrip c s = String d t → d ≠ c.
Proof.
  induction s as [|d s (n & Hs & Hfirst)]; simpl.
  - by exists 0.
  - destruct (Ascii.eqb_spec d c) as [->|Hne].
    + exists (S n). simpl. split; [by rewrite <- Hs | done].
    + exists 0. split; [done |]. by intros ? ? [= <- _].
Qed.

(** [rstrip] removes the trailing run of the character and nothing more. *)
Lemma rstrip_spec (c : ascii) (s : string) :
  ∃ n, s = Py.rstrip c s +:+ string_of_list_ascii (repeat c n)
       ∧ ∀ t, Py.rstrip c s ≠ t +:+ Py.str c.
Proof.
  induction s as [|d s (n & Hs & Hlast)]; simpl.
  - exists 0. split; [done |]. by intros [|? [|? ?]].
  - destruct (Py.rstrip c s) as [|e r] eqn:Hr.
    + destruct (Ascii.eqb_spec d c) as [->|Hne].
      * exists (S n). simpl in *. split; [by rewrite <- Hs |].
        by intros [|? [|? ?]].
      * exists n. simpl in *. split; [by rewrite <- Hs |].
        intros [|x [|y t]]; simpl; intros [=]; congruence.
    + exists n. split; [simpl in *; by rewrite <- Hs |].
      intros [|x t]; simpl; [done |]. intros [= _ Ht]. by apply (Hlast t).
Qed.

(** The metavar segment: for a non-empty metavar, the metavar without the
    spaces at its two ends and with each colon escaped, between two colons. *)
Lemma zsh_metavar_segment_escaped (m : string) :
  Py.truthy m = true →
  ∃ emitted,
    zsh_metavar_segment (Some m) = [":" +:+ emitted +:+ ":"]
    ∧ emitted = escape_zsh (Py.strip " " m)
    ∧ all_escaped ":" false emitted = true.
Proof.
  intros Ht. eexists. simpl. rewrite Ht.
  split_and!; [done | done | apply escape_zsh_all_escaped].
Qed.

(** C6. [escape_zsh] turns every colon into backslash-colon, and the
    serializer escapes the metavar after stripping it; but [strip(' ')]
    strips spaces only: of a metavar that starts with a tab and ends with a
    space, the space goes and the tab stays in the declaration. *)
Theorem zsh_metavar_keeps_tab :
  escape_zsh ":" = "\:"
  ∧ Py.strip " " (String Py.tab "FORMAT ") = String Py.tab "FORMAT"
  ∧ serialize_argument_to_zsh tabbed_argument
    = OK ("'--json=[Output format]:" +:+ String Py.tab "FORMAT:'").
Proof. by vm_compute. Qed.

(** ** Pipeline *)

Lemma write_text_OK (w w' : world) (path text : string) :
  write_text w path text = OK w' ↔
  (path ∉ unwritable w)
  ∧ w' = {| files := <[path := text]> (files w);
            unwritable := unwritable w; stdout := stdout w |}.
Proof.
  unfold write_text. case_decide; split.
  - done.
  - by intros [? _].
  - by intros [= <-].
  - by intros [_ ->].
Qed.

Lemma write_text_Raise (w : world) (path text : string) (e : exn) :
  write_text w path text = Raise e ↔ path ∈ unwritable w ∧ e = OSError.
Proof.
  unfold write_text. case_decide; split.
  - by intros [= <-].
  - by intros [_ ->].
  - done.
  - by intros [? _].
Qed.

Section PipelineFacts.

Variable EXTRAS_DIR : string.
Variable SEPARATOR_FILE_UPLOAD : string.
Variable template : Type.
Variable Template : string → result template.
Variable render :
  template → gmap string value → gmap string value → result string.
Variable compile_zsh : result value.

Abbreviation template_of := (template_file EXTRAS_DIR).
Abbreviation script_of := (compiletion_script_file EXTRAS_DIR).
Abbreviation rendered_by :=
  (rendered EXTRAS_DIR SEPARATOR_FILE_UPLOAD template Template render).
Abbreviation outcome_of := (outcome EXTRAS_DIR).

(** No script is written over a template. *)
Lemma script_is_no_template (shell_type shell_type' : string) :
  script_of shell_type ≠ template_of shell_type'.
Proof.
  unfold template_file, compiletion_script_file, with_suffix,
    COMPLETION_SCRIPT_BASE, COMPLETION_TEMPLATE_BASE,
    TEMPLATES_DIR, COMPLETION_DIR.
  rewrite !append_assoc. intros H%append_inj_l.
  apply (append_inj_l "/completion/") in H. simpl in H. done.
Qed.

(** The rendered text depends on the world through the template file
    only. *)
Lemma rendered_same_template (shell_type : string)
    (func : ParserSpec → result (gmap string value)) (spec : ParserSpec)
    (w w' : world) :
  files w' !! template_of shell_type = files w !! template_of shell_type →
  rendered_by shell_type func spec w' = rendered_by shell_type func spec w.
Proof. intros H. unfold rendered, read_text. by rewrite H. Qed.

Lemma rendered_print shell_type func spec w line :
  rendered_by shell_type func spec (print w line)
  = rendered_by shell_type func spec w.
Proof. by apply rendered_same_template. Qed.

Lemma rendered_write_text shell_type func spec w w' shell_type' text :
  write_text w (script_of shell_type') text = OK w' →
  rendered_by shell_type func spec w' = rendered_by shell_type func spec w.
Proof.
  intros [_ ->]%write_text_OK. apply rendered_same_template. simpl.
  apply lookup_insert_ne, script_is_no_template.
Qed.

(** One run, spelled out on the two registered shells. *)
Lemma main_outcome (options : ParserSpec) (w : world) :
  main EXTRAS_DIR SEPARATOR_FILE_UPLOAD template Template render compile_zsh
    options w
  = outcome_of (rendered_by "zsh" (zsh_completer compile_zsh) options w)
      (rendered_by "fish" fish_completer options w) w.
Proof.
  unfold main, COMPLETERS, run_completers, wrapper, outcome.
  rewrite rendered_print.
  destruct (rendered_by "zsh" (zsh_completer compile_zsh) options w)
    as [zsh|e]; [| done].
  simpl.
  destruct (write_text (print w (announce "zsh")) (script_of "zsh") zsh)
    as [w1|e] eqn:Hw1; [| done].
  rewrite rendered_print, (rendered_write_text _ _ _ _ _ _ _ Hw1),
    rendered_print.
  destruct (rendered_by "fish" fish_completer options w) as [fish|e];
    [| done].
  simpl. by destruct (write_text (print w1 (announce "fish")) _ fish).
Qed.

(** A run leaves the templates as they were. *)
Lemma outcome_template (zsh fish : result string) (w : world)
    (shell_type : string) :
  files (outcome_of zsh fish w).2 !! template_of shell_type
  = files w !! template_of shell_type.
Proof.
  unfold outcome, write_text.
  destruct zsh as [zsh|e], fish as [fish|e']; simpl;
    repeat (case_decide; simpl);
    rewrite ?lookup_insert_ne by apply script_is_no_template; done.
Qed.

End PipelineFacts.

(** ** A sample run *)

Example lookup_request_item :
  find_argument_by_target_name sample_options "REQUEST_ITEM"
  = OK request_item_argument.
Proof. reflexivity. Qed.

Example lookup_long_alias :
  find_argument_by_target_name sample_options "--output" = OK output_argument.
Proof. reflexivity. Qed.

Example lookup_missing :
  find_argument_by_target_name sample_options "URL"
  = Raise (ValueError (Some "Could not find argument with name URL")).
Proof. reflexivity. Qed.

Example sample_run_prints :
  stdout (sample_main sample_options sample_world).2
  = ["Generating zsh completer."; "Generating fish completer."].
Proof. by vm_compute. Qed.

Example sample_run_zsh :
  files (sample_main sample_options sample_world).2
    !! "extras/completion/completion.zsh"
  = Some ("#compdef http {-h,--help}'[Show help]'"
            +:+ String (ascii_of_nat 10)
                  ("{-o,--output}'=[Write to 'file']'"
                     +:+ String (ascii_of_nat 10)
                           "{-o,--output-format}'=[Format]:OUTPUT_FORMAT:(json xml)'")).
Proof. by vm_compute. Qed.

Lemma find_argument_by_target_name_first_match_witness :
  find_argument_by_target_name sample_options "-h" = OK help_argument
  ∧ (∀ argument, argument ∈ all_arguments sample_options →
       ¬ names "URL" argument).
Proof.
  split.
  - apply (proj1 (find_argument_by_target_name_first_match sample_options "-h")).
    exists [request_item_argument], [output_argument; format_argument].
    split_and!; [reflexivity | by left |].
    intros other ->%list_elem_of_singleton. simpl. discriminate.
  - apply (proj1 (proj2 (find_argument_by_target_name_first_match
                           sample_options "URL"))).
    reflexivity.
Defined.

(** * Further properties *)

(** ** Escaping *)

Lemma replace_not_starting (c : ascii) (s : string) :
  c ≠ "\"%char →
  starts_with c (Py.replace c (String "\" (Py.str c)) s) = false.
Proof.
  intros Hc. destruct s as [|d s]; [done |]. simpl.
  destruct (Ascii.eqb_spec d c) as [->|Hd]; simpl.
  - by apply Ascii.eqb_neq.
  - by apply Ascii.eqb_neq.
Qed.

Lemma unescape_replace (c : ascii) (s : string) :
  c ≠ "\"%char →
  unescape c (Py.replace c (String "\" (Py.str c)) s) = s.
Proof.
  intros Hc. induction s as [|d s IH]; [done |].
  cbn [Py.replace]. destruct (Ascii.eqb_spec d c) as [->|Hd].
  - cbn. rewrite !Ascii.eqb_refl. cbn. by rewrite IH.
  - pose proof (replace_not_starting c s Hc) as Hstart.
    cbn [unescape].
    destruct (Py.replace c (String "\" (Py.str c)) s) as [|e r] eqn:Hr.
    + by rewrite <- IH.
    + simpl in Hstart. rewrite Hstart, andb_false_r. by rewrite IH.
Qed.

Lemma replace_length (c : ascii) (s : string) :
  String.length (Py.replace c (String "\" (Py.str c)) s)
  = String.length s + count c s.
Proof.
  induction s as [|d s IH]; [done |].
  cbn [Py.replace count]. destruct (Ascii.eqb d c); cbn; rewrite IH; lia.
Qed.

(** X1. [escape_zsh] loses nothing: taking away the backslash in front of
    each colon gives the text back, so that two texts with the same escaped
    form are the same; and the escaped text is longer by one character for
    each colon. *)
Theorem escape_zsh_reversible (text : string) :
  unescape ":" (escape_zsh text) = text
  ∧ String.length (escape_zsh text) = String.length text + count ":" text
  ∧ ∀ other, escape_zsh other = escape_zsh text → other = text.
Proof.
  split_and!.
  - by apply (unescape_replace ":").
  - apply (replace_length ":").
  - intros other Heq. apply (f_equal (unescape ":")) in Heq.
    unfold escape_zsh in Heq.
    by rewrite !(unescape_replace ":") in Heq.
Qed.

Lemma escape_zsh_reversible_witness :
  unescape ":" (escape_zsh "HOST:PORT") = "HOST:PORT"
  ∧ String.length (escape_zsh "HOST:PORT") = 10
  ∧ "HOST:PORT" = "HOST:PORT".
Proof.
  destruct (escape_zsh_reversible "HOST:PORT") as (Hback & Hlen & Hinj).
  split_and!; [exact Hback | exact Hlen | apply Hinj; reflexivity].
Defined.

(** X2. The help text can be read back from a fish declaration: the last
    token is the help between single quotes, and taking away the backslash
    in front of each single quote inside gives the help of the argument. *)
Theorem fish_description_reversible (argument : Argument) (out : string) :
  serialize_argument_to_fish argument = OK out →
  ∃ tokens quoted,
    out = Py.join (Py.str Py.tab) (tokens ++ ["-d"; "'" +:+ quoted +:+ "'"])
    ∧ unescape "'" quoted = short_help argument
    ∧ String.length quoted
      = String.length (short_help argument) + count "'" (short_help argument).
Proof.
  unfold serialize_argument_to_fish, fish_declaration.
  destruct (fish_aliases argument) as [[short_form long_form]|e]; simpl;
    [| done].
  intros [= <-].
  exists (["complete"; "-c"; "http"] ++ fish_short short_form
            ++ ["-l"; long_form] ++ fish_choices (configuration argument)),
         (Py.replace "'" "\'" (short_help argument)).
  split_and!.
  - unfold fish_description. by rewrite <- !app_assoc.
  - by apply (unescape_replace "'").
  - apply (replace_length "'").
Qed.

Lemma fish_description_reversible_witness :
  ∃ tokens quoted,
    Py.join (Py.str Py.tab)
      ["complete"; "-c"; "http"; "-s"; "-o"; "-l"; "--output"; "-d";
       "'Write to \'file\''"]
    = Py.join (Py.str Py.tab) (tokens ++ ["-d"; "'" +:+ quoted +:+ "'"])
    ∧ unescape "'" quoted = "Write to 'file'"
    ∧ String.length quoted = 15 + 2.
Proof.
  apply (fish_description_reversible output_argument). reflexivity.
Defined.

(** ** Fish serializer: domain and tokens *)

Lemma fish_aliases_total (argument : Argument) :
  length (aliases argument) = 1 ∨ length (aliases argument) = 2 →
  ∃ short_form long_form, fish_aliases argument = OK (short_form, long_form).
Proof.
  unfold fish_aliases.
  destruct (aliases argument) as [|a [|b [|c l]]]; simpl;
    intros [H|H]; try discriminate H; by eexists _, _.
Qed.

(** X3. The fish serializer returns a declaration exactly for the arguments
    with one alias or with two; on every other argument, one without aliases
    among them, it raises [ValueError]. *)
Theorem fish_defined_for_one_or_two_aliases (argument : Argument) :
  ((∃ out, serialize_argument_to_fish argument = OK out) ↔
   length (aliases argument) = 1 ∨ length (aliases argument) = 2)
  ∧ (aliases argument = [] →
     serialize_argument_to_fish argument = Raise (ValueError None))
  ∧ (∀ e, serialize_argument_to_fish argument = Raise e →
          e = ValueError None).
Proof.
  unfold serialize_argument_to_fish, fish_declaration.
  destruct (decide (length (aliases argument) = 1
                    ∨ length (aliases argument) = 2)) as [Hlen|Hlen].
  - destruct (fish_aliases_total argument Hlen) as (sf & lf & ->). simpl.
    split_and!.
    + split; [done | by eexists].
    + intros Hal. rewrite Hal in Hlen. simpl in Hlen. lia.
    + intros e [=].
  - rewrite fish_aliases_raise; [| tauto | tauto]. simpl. split_and!.
    + split; [by intros [out [=]] | done].
    + done.
    + by intros e [= <-].
Qed.

Lemma fish_defined_for_one_or_two_aliases_witness :
  (∃ out, serialize_argument_to_fish json_argument = OK out)
  ∧ serialize_argument_to_fish request_item_argument
    = Raise (ValueError None).
Proof.
  split.
  - apply (proj1 (fish_defined_for_one_or_two_aliases json_argument)).
    left. reflexivity.
  - apply (proj1 (proj2 (fish_defined_for_one_or_two_aliases
                           request_item_argument))).
    reflexivity.
Defined.

(** X4. A short spelling that is the empty string is dropped without a
    word: an argument whose aliases are [''] and a long spelling gets the
    declaration of the argument that has the long spelling alone. *)
Theorem fish_empty_short_alias_dropped (a b : Argument) (long_form : string) :
  aliases a = [""; long_form] → aliases b = [long_form] →
  short_help a = short_help b → configuration a = configuration b →
  serialize_argument_to_fish a = serialize_argument_to_fish b.
Proof.
  intros Ha Hb Hh Hc.
  unfold serialize_argument_to_fish, fish_declaration, fish_aliases.
  by rewrite Ha, Hb, Hh, Hc.
Qed.

Lemma fish_empty_short_alias_dropped_witness :
  serialize_argument_to_fish
    (option_argument [""; "--json"] false "Output format" no_configuration)
  = serialize_argument_to_fish
      (option_argument ["--json"] false "Output format" no_configuration).
Proof.
  apply (fish_empty_short_alias_dropped _ _ "--json"); reflexivity.
Defined.

Lemma occurs_append (c : ascii) (s t : string) :
  occurs c (s +:+ t) = occurs c s || occurs c t.
Proof.
  induction s as [|d s IH]; [done |]. simpl. by rewrite IH, orb_assoc.
Qed.

Lemma occurs_join (c : ascii) (sep : string) (parts : list string) :
  occurs c sep = false →
  Forall (λ p, occurs c p = false) parts →
  occurs c (Py.join sep parts) = false.
Proof.
  intros Hsep. induction 1 as [|p ps Hp Hps IH]; [done |].
  destruct ps as [|q ps]; [done |].
  change (Py.join sep (p :: q :: ps)) with (p +:+ sep +:+ Py.join sep (q :: ps)).
  by rewrite !occurs_append, Hp, Hsep, IH.
Qed.

Lemma occurs_replace (c old : ascii) (new s : string) :
  occurs c new = false → occurs c s = false →
  occurs c (Py.replace old new s) = false.
Proof.
  intros Hnew. induction s as [|d s IH]; [done |]. simpl.
  intros [Hd Hs]%orb_false_elim.
  destruct (Ascii.eqb d old).
  - by rewrite occurs_append, Hnew, IH.
  - simpl. by rewrite Hd, IH.
Qed.

Lemma split_whole (sep : ascii) (s : string) :
  occurs sep s = false → split sep s = [s].
Proof.
  induction s as [|c s IH]; [done |]. simpl.
  intros [Hc Hs]%orb_false_elim. by rewrite Hc, IH.
Qed.

Lemma split_first (sep : ascii) (piece rest : string) :
  occurs sep piece = false →
  split sep (piece +:+ String sep rest) = piece :: split sep rest.
Proof.
  induction piece as [|c p IH]; simpl.
  - intros _. by rewrite Ascii.eqb_refl.
  - intros [Hc Hp]%orb_false_elim. by rewrite Hc, IH.
Qed.

(** Splitting undoes joining when no part holds the separator. *)
Lemma split_join (sep : ascii) (parts : list string) :
  parts ≠ [] →
  Forall (λ p, occurs sep p = false) parts →
  split sep (Py.join (Py.str sep) parts) = parts.
Proof.
  intros Hne Hparts. induction Hparts as [|p ps Hp Hps IH]; [done |].
  destruct ps as [|q ps]; [by apply split_whole |].
  change (Py.join (Py.str sep) (p :: q :: ps))
    with (p +:+ String sep (Py.join (Py.str sep) (q :: ps))).
  rewrite split_first by done. by rewrite IH.
Qed.

Lemma fish_tokens_tab_free (argument : Argument) (declaration : list string) :
  fish_declaration argument = OK declaration →
  Forall (λ alias, occurs Py.tab alias = false) (aliases argument) →
  (∀ cs, choices (configuration argument) = Some cs →
         Forall (λ choice, occurs Py.tab choice = false) cs) →
  occurs Py.tab (short_help argument) = false →
  declaration ≠ []
  ∧ Forall (λ token, occurs Py.tab token = false) declaration.
Proof.
  unfold fish_declaration, fish_aliases. intros Hd Hal Hcs Hhelp.
  assert (Forall (λ token, occurs Py.tab token = false)
            (fish_choices (configuration argument))) as Hchoices.
  { unfold fish_choices.
    destruct (choices (configuration argument)) as [cs|].
    - repeat constructor.
      rewrite !occurs_append, (occurs_join Py.tab " " cs); [done | done |].
      by apply Hcs.
    - destruct (lazy_choices _); by repeat constructor. }
  assert (Forall (λ token, occurs Py.tab token = false)
            (fish_description (short_help argument))) as Hdescription.
  { repeat constructor.
    by rewrite !occurs_append, (occurs_replace Py.tab "'" "\'"). }
  set (selection := fish_choices _) in *.
  set (description := fish_description _) in *.
  clearbody selection description.
  destruct (aliases argument) as [|a [|b [|c l]]]; simpl in Hd; try done;
    injection Hd as <-; (split; [done |]).
  - apply Forall_cons in Hal as [Ha _].
    repeat first [apply Forall_cons; split | apply Forall_app; split];
      done || apply Forall_nil.
  - apply Forall_cons in Hal as [Ha [Hb _]%Forall_cons].
    destruct a;
      repeat first [apply Forall_cons; split | apply Forall_app; split];
      done || apply Forall_nil.
Qed.

(** X5. When no alias, no choice and not the help holds a tab, the tokens of
    a fish declaration are what splitting it at the tabs gives: no token
    runs into its neighbour. *)
Theorem fish_declaration_splits (argument : Argument) (out : string) :
  serialize_argument_to_fish argument = OK out →
  Forall (λ alias, occurs Py.tab alias = false) (aliases argument) →
  (∀ cs, choices (configuration argument) = Some cs →
         Forall (λ choice, occurs Py.tab choice = false) cs) →
  occurs Py.tab (short_help argument) = false →
  fish_declaration argument = OK (split Py.tab out).
Proof.
  unfold serialize_argument_to_fish. intros Hout Hal Hcs Hhelp.
  destruct (fish_declaration argument) as [declaration|e] eqn:Hd;
    simpl in Hout; [| done].
  injection Hout as <-.
  destruct (fish_tokens_tab_free argument declaration Hd Hal Hcs Hhelp)
    as [Hne Hfree].
  by rewrite split_join.
Qed.

Lemma fish_declaration_splits_witness :
  fish_declaration format_argument
  = OK (split Py.tab
          (Py.join (Py.str Py.tab)
             ["complete"; "-c"; "http"; "-s"; "-o"; "-l"; "--output-format";
              "-xa"; Py.str Py.dquote +:+ "json xml" +:+ Py.str Py.dquote;
              "-d"; "'Format'"])).
Proof.
  apply (fish_declaration_splits format_argument).
  - reflexivity.
  - by repeat constructor.
  - intros cs [= <-]. by repeat constructor.
  - reflexivity.
Defined.

(** ** Zsh serializer: the metavar *)

Lemma upper_char_dash (d : ascii) :
  Ascii.eqb (Py.upper_char d) "-" = Ascii.eqb d "-".
Proof. by destruct d as [[] [] [] [] [] [] [] []]. Qed.

Lemma upper_char_not_lower (d : ascii) :
  ((97 <=? nat_of_ascii (Py.upper_char d))
   && (nat_of_ascii (Py.upper_char d) <=? 122))%nat = false.
Proof. by destruct d as [[] [] [] [] [] [] [] []]. Qed.

Lemma upper_has_no_lower (s : string) : has_lower (Py.upper s) = false.
Proof.
  induction s as [|d s IH]; [done |].
  cbn [Py.upper has_lower]. by rewrite upper_char_not_lower, IH.
Qed.

Lemma upper_occurs_dash (s : string) :
  occurs "-" (Py.upper s) = occurs "-" s.
Proof.
  induction s as [|d s IH]; [done |].
  cbn [Py.upper occurs]. by rewrite upper_char_dash, IH.
Qed.

Lemma replace_removes (c : ascii) (new s : string) :
  occurs c new = false → occurs c (Py.replace c new s) = false.
Proof.
  intros Hnew. induction s as [|d s IH]; [done |]. simpl.
  destruct (Ascii.eqb d c) eqn:Hd.
  - by rewrite occurs_append, Hnew, IH.
  - simpl. by rewrite Hd, IH.
Qed.

Lemma lstrip_empty (c : ascii) (s : string) :
  Py.lstrip c s = "" ↔ only c s = true.
Proof.
  induction s as [|d s IH]; [done |]. simpl.
  destruct (Ascii.eqb d c); simpl; [done |]. split; discriminate.
Qed.

Lemma replace_empty (c d : ascii) (s : string) :
  Py.replace c (Py.str d) s = "" ↔ s = "".
Proof.
  destruct s as [|e s]; [done |]. simpl.
  destruct (Ascii.eqb e c); split; discriminate.
Qed.

Lemma upper_empty (s : string) : Py.upper s = "" ↔ s = "".
Proof. destruct s; split; done. Qed.

(** X6. A metavar derived from ASCII aliases holds no dash and none of the
    letters [a]..[z]. *)
Theorem zsh_derived_metavar_alphabet (argument : Argument) (m : string) :
  metavar (configuration argument) = None →
  Forall (λ alias, is_ascii alias = true) (aliases argument) →
  zsh_metavar argument = OK (Some m) →
  occurs "-" m = false ∧ has_lower m = false.
Proof.
  unfold zsh_metavar. intros -> _.
  destruct (choices (configuration argument)); [| done].
  destruct (Py.max_len (aliases argument)) as [longest|e]; simpl; [| done].
  intros [= <-]. split.
  - rewrite upper_occurs_dash. by apply replace_removes.
  - apply upper_has_no_lower.
Qed.

Lemma zsh_derived_metavar_alphabet_witness :
  occurs "-" "OUTPUT_FORMAT" = false ∧ has_lower "OUTPUT_FORMAT" = false.
Proof.
  apply (zsh_derived_metavar_alphabet format_argument);
    [reflexivity | by repeat constructor | reflexivity].
Defined.

(** X7. The metavar derived from ASCII aliases is the empty string exactly
    when the first of the longest aliases is made of dashes alone (the empty
    alias among them). *)
Theorem zsh_derived_metavar_empty (argument : Argument)
    (cs : list string) :
  metavar (configuration argument) = None →
  choices (configuration argument) = Some cs →
  aliases argument ≠ [] →
  Forall (λ alias, is_ascii alias = true) (aliases argument) →

  ∃ longest m,
    first_longest longest (aliases argument)
    ∧ zsh_metavar argument = OK (Some m)
    ∧ (m = "" ↔ only "-" longest = true).
Proof.
  intros Hm Hcs Hne _. unfold zsh_metavar. rewrite Hm, Hcs.
  destruct (aliases argument) as [|a l]; [done |]. simpl.
  eexists _, _. split_and!; [apply max_len_from_first_longest | done |].
  by rewrite upper_empty, (replace_empty "-" "_"), lstrip_empty.
Qed.

Lemma zsh_derived_metavar_empty_witness :
  ∃ longest m,
    first_longest longest ["--"]
    ∧ zsh_metavar dashes_argument = OK (Some m)
    ∧ (m = "" ↔ only "-" longest = true).
Proof.
  apply (zsh_derived_metavar_empty dashes_argument ["a"; "b"]);
    [reflexivity | reflexivity | discriminate | by repeat constructor].
Defined.

(** X8. With choices, no configured metavar and ASCII aliases, as soon as
    the first of the longest aliases holds a character that is no dash, the
    declaration ends with the segment of the derived metavar and then the
    choices, joined by spaces in their order. *)
Theorem zsh_derived_metavar_hosts_choices (argument : Argument)
    (first : string) (others cs : list string) :
  metavar (configuration argument) = None →
  choices (configuration argument) = Some cs →
  aliases argument = first :: others →
  Forall (λ alias, is_ascii alias = true) (aliases argument) →
  only "-" (Py.max_len_from first others) = false →
  ∃ prefix start m,
    zsh_declaration argument
    = OK (prefix,
          start ++ [":" +:+ m +:+ ":"; "(" +:+ Py.join " " cs +:+ ")"])
    ∧ m = escape_zsh (Py.strip " " (Py.upper (Py.replace "-" "_"
            (Py.lstrip "-" (Py.max_len_from first others))))).
Proof.
  intros Hm Hcs Hal _ Hdash.
  set (derived := Py.upper (Py.replace "-" "_"
                    (Py.lstrip "-" (Py.max_len_from first others)))).
  assert (zsh_metavar argument = OK (Some derived)) as Hmv.
  { unfold zsh_metavar. by rewrite Hm, Hcs, Hal. }
  assert (Py.truthy derived = true) as Htruthy.
  { destruct derived as [|d r] eqn:Hd; [| done].
    apply upper_empty, (replace_empty "-" "_"), lstrip_empty in Hd.
    congruence. }
  destruct (zsh_declaration argument) as [[prefix declaration]|e] eqn:Hdecl.
  - destruct (zsh_choices_follow_metavar argument prefix declaration derived
                cs Hdecl Hmv Htruthy Hcs) as [start ->].
    by eexists _, _, _.
  - exfalso. unfold zsh_declaration, zsh_aliases in Hdecl.
    rewrite Hmv, Hal in Hdecl. by destruct others.
Qed.

Lemma zsh_derived_metavar_hosts_choices_witness :
  ∃ prefix start m,
    zsh_declaration format_argument
    = OK (prefix, start ++ [":" +:+ m +:+ ":"; "(" +:+ "json xml" +:+ ")"])
    ∧ m = "OUTPUT_FORMAT".
Proof.
  apply (zsh_derived_metavar_hosts_choices format_argument "-o"
           ["--output-format"] ["json"; "xml"]);
    [reflexivity | reflexivity | reflexivity | by repeat constructor
    | reflexivity].
Defined.

Lemma lstrip_not_starting (c : ascii) (s : string) :
  starts_with c (Py.lstrip c s) = false.
Proof.
  induction s as [|d s IH]; [done |]. simpl.
  destruct (Ascii.eqb d c) eqn:Hd; [done |]. simpl. done.
Qed.

Lemma rstrip_starting (c : ascii) (s : string) :
  starts_with c s = false → starts_with c (Py.rstrip c s) = false.
Proof.
  destruct s as [|d s]; [done |]. simpl. intros Hd.
  destruct (Py.rstrip c s); [by rewrite Hd | done].
Qed.

Lemma rstrip_not_ending (c : ascii) (s : string) :
  ends_with c (Py.rstrip c s) = false.
Proof.
  induction s as [|d s IH]; [done |]. simpl.
  destruct (Py.rstrip c s) as [|e t].
  - destruct (Ascii.eqb d c) eqn:Hd; [done |]. simpl. done.
  - done.
Qed.

Lemma escape_zsh_starting (s : string) :
  starts_with " " (escape_zsh s) = starts_with " " s.
Proof.
  destruct s as [|d s]; [done |]. unfold escape_zsh. simpl.
  destruct (Ascii.eqb_spec d ":") as [->|Hd]; done.
Qed.

Lemma escape_zsh_empty (s : string) : escape_zsh s = "" → s = "".
Proof.
  destruct s as [|e s]; [done |]. unfold escape_zsh. simpl.
  destruct (Ascii.eqb e ":"); discriminate.
Qed.

Lemma escape_zsh_ending (s : string) :
  ends_with " " (escape_zsh s) = ends_with " " s.
Proof.
  induction s as [|d s IH]; [done |].
  pose proof (escape_zsh_empty s) as Hempty.
  unfold escape_zsh in *. cbn [Py.replace].
  destruct (Ascii.eqb_spec d ":") as [->|Hd].
  - cbn. destruct (Py.replace ":" "\:" s) as [|x r] eqn:Hr.
    + by rewrite Hempty.
    + destruct s as [|e s]; [discriminate Hr | exact IH].
  - cbn [ends_with]. destruct (Py.replace ":" "\:" s) as [|x r] eqn:Hr.
    + by rewrite Hempty.
    + destruct s as [|e s]; [discriminate Hr | exact IH].
Qed.

(** X9. The metavar between the two colons of its segment neither starts
    nor ends with a space. *)
Theorem zsh_emitted_metavar_trimmed (m : string) :
  Py.truthy m = true →
  ∃ emitted,
    zsh_metavar_segment (Some m) = [":" +:+ emitted +:+ ":"]
    ∧ starts_with " " emitted = false
    ∧ ends_with " " emitted = false.
Proof.
  intros Ht. exists (escape_zsh (Py.strip " " m)). simpl. rewrite Ht.
  split_and!; [done | |].
  - rewrite escape_zsh_starting. apply rstrip_starting, lstrip_not_starting.
  - rewrite escape_zsh_ending. apply rstrip_not_ending.
Qed.

Lemma zsh_emitted_metavar_trimmed_witness :
  ∃ emitted,
    zsh_metavar_segment (Some "  FILE NAME ") = [":" +:+ emitted +:+ ":"]
    ∧ starts_with " " emitted = false
    ∧ ends_with " " emitted = false.
Proof. apply zsh_emitted_metavar_trimmed. reflexivity. Defined.

Lemma strip_only (c : ascii) (s : string) :
  only c s = true → Py.strip c s = "".
Proof.
  intros H. unfold Py.strip. apply lstrip_empty in H. by rewrite H.
Qed.

(** X10. A configured metavar that is made of spaces alone is not skipped:
    it is truthy, so that its segment is emitted, and stripped to nothing,
    so that the segment is [::]. *)
Theorem zsh_blank_metavar_segment (argument : Argument) (m : string) :
  aliases argument ≠ [] →
  metavar (configuration argument) = Some m →
  m ≠ "" → only " " m = true →
  ∃ prefix start,
    zsh_aliases argument = OK (prefix, start)
    ∧ zsh_declaration argument
      = OK (prefix,
            start ++ (if is_flag argument then [] else ["="])
              ++ ["[" +:+ short_help argument +:+ "]"; "::"]
              ++ zsh_choices_segment (choices (configuration argument))).
Proof.
  intros Hne Hm Hnonempty Honly.
  unfold zsh_declaration, zsh_metavar. rewrite Hm.
  destruct (zsh_aliases argument) as [[prefix start]|e] eqn:Ha.
  - exists prefix, start. split; [done |]. simpl.
    rewrite (strip_only " " m Honly).
    destruct m as [|c m]; [done |]. simpl.
    destruct (is_flag argument); simpl; by rewrite <- !app_assoc.
  - exfalso. unfold zsh_aliases in Ha.
    destruct (aliases argument) as [|a [|b l]]; simpl in Ha; done.
Qed.

Lemma zsh_blank_metavar_segment_witness :
  ∃ prefix start,
    zsh_aliases (option_argument ["--json"] false "Output format"
                   {| metavar := Some "  "; choices := None;
                      lazy_choices := None |})
    = OK (prefix, start)
    ∧ zsh_declaration (option_argument ["--json"] false "Output format"
                         {| metavar := Some "  "; choices := None;
                            lazy_choices := None |})
      = OK (prefix, start ++ ["="] ++ ["[Output format]"; "::"] ++ []).
Proof.
  apply (zsh_blank_metavar_segment
           (option_argument ["--json"] false "Output format"
              {| metavar := Some "  "; choices := None;
                 lazy_choices := None |}) "  ");
    [discriminate | reflexivity | discriminate | reflexivity].
Defined.

(** ** Lookup and bindings *)

Lemma find_in_groups_app (gs1 gs2 : list ArgumentGroup) (name : string) :
  find_in_groups (gs1 ++ gs2) name
  = match find_in_groups gs1 name with
    | Some argument => Some argument
    | None => find_in_groups gs2 name
    end.
Proof.
  induction gs1 as [|g gs1 IH]; [done |]. simpl.
  by destruct (find_in_arguments (arguments g) name).
Qed.

(** X11. The lookup sees the arguments only in the order of the scan: a
    lookup over two runs of groups is the lookup over the first run and, when
    that one fails, the lookup over the second; and two specifications with
    the same arguments in the same order, grouped in whatever way, give the
    same answer. *)
Theorem find_argument_by_target_name_groups (name : string) :
  (∀ gs1 gs2,
     find_argument_by_target_name {| groups := gs1 ++ gs2 |} name
     = match find_argument_by_target_name {| groups := gs1 |} name with
       | OK argument => OK argument
       | Raise _ => find_argument_by_target_name {| groups := gs2 |} name
       end)
  ∧ (∀ spec spec',
       all_arguments spec = all_arguments spec' →
       find_argument_by_target_name spec name
       = find_argument_by_target_name spec' name).
Proof.
  split.
  - intros gs1 gs2. unfold find_argument_by_target_name. simpl.
    rewrite find_in_groups_app.
    by destruct (find_in_groups gs1 name).
  - intros spec spec' Hflat. unfold find_argument_by_target_name.
    rewrite !find_in_groups_flat. unfold all_arguments in Hflat.
    by rewrite Hflat.
Qed.

Lemma find_argument_by_target_name_groups_witness :
  find_argument_by_target_name sample_options "--output"
  = find_argument_by_target_name
      {| groups :=
           [ {| arguments := [request_item_argument] |};
             {| arguments := [] |};
             {| arguments :=
                  [help_argument; output_argument; format_argument] |} ] |}
      "--output".
Proof.
  apply (proj2 (find_argument_by_target_name_groups "--output")).
  reflexivity.
Defined.

(** X12. The arguments handed to the templates are the arguments of the
    specification that are neither hidden nor positional, in the order of
    the specification. *)
Theorem visible_arguments_spec (spec : ParserSpec) :
  (∀ argument,
     argument ∈ visible_arguments spec ↔
     argument ∈ all_arguments spec
     ∧ is_hidden argument = false ∧ is_positional argument = false)
  ∧ sublist (visible_arguments spec) (all_arguments spec).
Proof.
  unfold visible_arguments, all_arguments. split.
  - intros argument. rewrite !list_elem_of_bind. split.
    + intros (g & Hin & Hg). apply list_elem_of_filter in Hin as [Hp Hin].
      split; [by exists g |].
      apply Is_true_true, andb_true_iff in Hp as [Hh Hpos].
      by rewrite negb_true_iff in Hh, Hpos.
    + intros ((g & Hin & Hg) & Hh & Hpos). exists g. split; [| done].
      apply list_elem_of_filter. split; [| done].
      by rewrite Hh, Hpos.
  - induction (groups spec) as [|g gs IH]; [done |].
    rewrite !bind_cons. apply sublist_app; [apply sublist_filter | done].
Qed.

(** X13. [prepare_objects] fails exactly when no argument is found under
    the name [REQUEST_ITEM], and with the error of the lookup; otherwise it
    binds five names and no other: the registered helper, the argument found,
    the visible arguments, the list of methods and the flow generator. *)
Theorem prepare_objects_bindings (SEPARATOR_FILE_UPLOAD : string)
    (spec : ParserSpec) :
  match find_argument_by_target_name spec "REQUEST_ITEM" with
  | OK request_items =>
      ∃ global_objects,
        prepare_objects SEPARATOR_FILE_UPLOAD spec = OK global_objects
        ∧ dom global_objects
          = list_to_set ["is_file_based_operator"; "request_items";
                         "arguments"; "methods"; "generate_flow"]
        ∧ global_objects !! "request_items" = Some (AnArgument request_items)
        ∧ global_objects !! "arguments"
          = Some (ArgumentList (visible_arguments spec))
        ∧ global_objects !! "methods" = Some (StringList COMMON_HTTP_METHODS)
        ∧ global_objects !! "generate_flow" = Some (External "generate_flow")
  | Raise e => prepare_objects SEPARATOR_FILE_UPLOAD spec = Raise e
  end.
Proof.
  unfold prepare_objects.
  destruct (find_argument_by_target_name spec "REQUEST_ITEM")
    as [request_items|e]; [| done].
  simpl. eexists. split; [done |]. split_and!.
  - unfold BASE_FUNCTIONS. rewrite !dom_insert_L, dom_singleton_L. simpl.
    set_solver.
  - by simplify_map_eq.
  - by simplify_map_eq.
  - by simplify_map_eq.
  - by simplify_map_eq.
Qed.

(** X14. When the arguments without aliases are the positional ones, the
    zsh serializer returns a declaration for every argument handed to the
    templates. *)
Theorem zsh_serializes_visible_arguments (spec : ParserSpec) :
  (∀ argument, argument ∈ all_arguments spec →
               aliases argument = [] → is_positional argument = true) →
  ∀ argument, argument ∈ visible_arguments spec →
              ∃ out, serialize_argument_to_zsh argument = OK out.
Proof.
  intros Hcoherent argument Hin.
  unfold visible_arguments in Hin.
  apply list_elem_of_bind in Hin as (g & Hin & Hg).
  apply list_elem_of_filter in Hin as [Hp Hin].
  apply Is_true_true, andb_true_iff in Hp as [_ Hpos].
  rewrite negb_true_iff in Hpos.
  destruct (zsh_metavar_total argument) as [m Hm].
  { intros Hal. rewrite Hcoherent in Hpos; [done | | done].
    unfold all_arguments. apply list_elem_of_bind. by exists g. }
  destruct (zsh_aliases argument) as [[prefix start]|e] eqn:Ha.
  - eexists. by apply zsh_declaration_body.
  - exfalso. unfold zsh_aliases in Ha.
    destruct (aliases argument) as [|a [|b l]] eqn:Hal; simpl in Ha;
      [| done | done].
    rewrite Hcoherent in Hpos; [done | | done].
    unfold all_arguments. apply list_elem_of_bind. by exists g.
Qed.

Lemma zsh_serializes_visible_arguments_witness :
  ∃ out, serialize_argument_to_zsh format_argument = OK out.
Proof.
  apply (zsh_serializes_visible_arguments sample_options).
  - intros argument Hin Hal. unfold all_arguments in Hin. simpl in Hin.
    repeat (apply elem_of_cons in Hin as [-> | Hin]; [by vm_compute |]).
    by apply elem_of_nil in Hin.
  - unfold visible_arguments. simpl. vm_compute. do 2 right. left.
Defined.

(** ** Driver *)

Section DriverFacts.

Variable EXTRAS_DIR : string.
Variable SEPARATOR_FILE_UPLOAD : string.
Variable template : Type.
Variable Template : string → result template.
Variable render :
  template → gmap string value → gmap string value → result string.
Variable compile_zsh : result value.

Abbreviation template_at := (template_file EXTRAS_DIR).
Abbreviation script_at := (compiletion_script_file EXTRAS_DIR).
Abbreviation rendering :=
  (rendered EXTRAS_DIR SEPARATOR_FILE_UPLOAD template Template render).
Abbreviation zsh_extra := (zsh_completer compile_zsh).
Abbreviation run :=
  (main EXTRAS_DIR SEPARATOR_FILE_UPLOAD template Template render
     compile_zsh).

Lemma scripts_differ : script_at "zsh" ≠ script_at "fish".
Proof.
  unfold compiletion_script_file, with_suffix, COMPLETION_SCRIPT_BASE,
    COMPLETION_DIR.
  rewrite !append_assoc. intros H%append_inj_l.
  by apply (append_inj_l "/completion/completion.") in H.
Qed.

(** X15. A run writes to the two scripts and to nothing else: every other
    file, the templates among them, is after the run what it was before,
    however the run ends. *)
Theorem main_writes_scripts_only (options : ParserSpec) (w : world) :
  (∀ path, path ≠ script_at "zsh" → path ≠ script_at "fish" →
           files (run options w).2 !! path = files w !! path)
  ∧ (∀ shell_type,
       files (run options w).2 !! template_at shell_type
       = files w !! template_at shell_type).
Proof.
  rewrite main_outcome. split.
  - intros path Hz Hf. unfold outcome, write_text.
    destruct (rendered _ _ _ _ _ "zsh" _ _ _) as [zsh|e],
             (rendered _ _ _ _ _ "fish" _ _ _) as [fish|e']; simpl;
      repeat (case_decide; simpl);
      by rewrite ?lookup_insert_ne.
  - intros shell_type. apply outcome_template.
Qed.

(** X16. When the text for zsh cannot be made, nothing is written and the
    fish completer is neither announced nor run; this is what happens when
    the zsh template is missing, and when the template is there and no
    argument is found under the name [REQUEST_ITEM]. *)
Theorem main_stops_at_first_failure (options : ParserSpec) (w : world) :
  (∀ e, rendering "zsh" zsh_extra options w = Raise e →
        run options w = (Raise e, print w (announce "zsh")))
  ∧ (files w !! template_at "zsh" = None →
     run options w = (Raise OSError, print w (announce "zsh")))
  ∧ (∀ text t e,
       files w !! template_at "zsh" = Some text →
       Template text = OK t →
       find_argument_by_target_name options "REQUEST_ITEM" = Raise e →
       run options w = (Raise e, print w (announce "zsh"))).
Proof.
  split_and!.
  - intros e He. by rewrite main_outcome, He.
  - intros Hmissing. rewrite main_outcome.
    unfold rendered at 1, read_text. by rewrite Hmissing.
  - intros text t e Htext Ht He. rewrite main_outcome.
    unfold rendered at 1, read_text, prepare_objects.
    rewrite Htext. simpl. rewrite Ht. simpl. by rewrite He.
Qed.

(** X17. When both texts can be made and both scripts can be written to,
    the run returns, each script holds its text, whatever it held before,
    and the two announcements are printed in the order of registration.  The
    text for fish is the one made in the world the run started in: writing
    the zsh script does not change it. *)
Theorem main_writes_both_scripts (options : ParserSpec) (w : world)
    (zsh fish : string) :
  rendering "zsh" zsh_extra options w = OK zsh →
  rendering "fish" fish_completer options w = OK fish →
  script_at "zsh" ∉ unwritable w →
  script_at "fish" ∉ unwritable w →
  (run options w).1 = OK ()
  ∧ files (run options w).2 !! script_at "zsh" = Some zsh
  ∧ files (run options w).2 !! script_at "fish" = Some fish
  ∧ stdout (run options w).2
    = stdout w ++ [announce "zsh"; announce "fish"].
Proof.
  intros Hz Hf Hwz Hwf. rewrite main_outcome, Hz, Hf.
  unfold outcome, write_text. simpl.
  rewrite (decide_False (P := _ ∈ unwritable w)) by done. simpl.
  rewrite (decide_False (P := _ ∈ unwritable w)) by done. simpl.
  split_and!.
  - done.
  - rewrite lookup_insert_ne by (symmetry; apply scripts_differ).
    by rewrite lookup_insert_eq.
  - by rewrite lookup_insert_eq.
  - by rewrite <- app_assoc.
Qed.

(** X18. When the text for zsh can be made and written and the text for
    fish cannot be made, the run fails with the error of fish and the zsh
    script stays written: nothing is rolled back. *)
Theorem main_keeps_zsh_script (options : ParserSpec) (w : world)
    (zsh : string) (e : exn) :
  rendering "zsh" zsh_extra options w = OK zsh →
  script_at "zsh" ∉ unwritable w →
  rendering "fish" fish_completer options w = Raise e →
  (run options w).1 = Raise e
  ∧ files (run options w).2 = <[script_at "zsh" := zsh]> (files w)
  ∧ stdout (run options w).2
    = stdout w ++ [announce "zsh"; announce "fish"].
Proof.
  intros Hz Hwz Hf. rewrite main_outcome, Hz, Hf.
  unfold outcome, write_text. simpl.
  rewrite (decide_False (P := _ ∈ unwritable w)) by done. simpl.
  split_and!; [done | done | by rewrite <- app_assoc].
Qed.

(** X19. A script that cannot be written to ends the run with [OSError]:
    for the zsh script, before anything is written and before the fish
    completer is announced; for the fish script, after the zsh script was
    written, which stays. *)
Theorem main_fails_on_unwritable_script (options : ParserSpec) (w : world)
    (zsh : string) :
  rendering "zsh" zsh_extra options w = OK zsh →
  (script_at "zsh" ∈ unwritable w →
   run options w = (Raise OSError, print w (announce "zsh")))
  ∧ (∀ fish,
       rendering "fish" fish_completer options w = OK fish →
       script_at "zsh" ∉ unwritable w →
       script_at "fish" ∈ unwritable w →
       (run options w).1 = Raise OSError
       ∧ files (run options w).2 = <[script_at "zsh" := zsh]> (files w)).
Proof.
  intros Hz. rewrite main_outcome, Hz. unfold outcome, write_text. split.
  - intros Hwz. simpl.
    by rewrite (decide_True (P := _ ∈ unwritable w)) by done.
  - intros fish -> Hwz Hwf. simpl.
    rewrite (decide_False (P := _ ∈ unwritable w)) by done. simpl.
    by rewrite (decide_True (P := _ ∈ unwritable w)) by done.
Qed.

End DriverFacts.

Lemma main_writes_scripts_only_witness :
  files (sample_main sample_options sample_world).2 !! "extras/README"
  = files sample_world !! "extras/README".
Proof.
  apply (proj1 (main_writes_scripts_only "extras" "@" string OK sample_render
                  (OK (External "compile_zsh")) sample_options sample_world));
    by vm_compute.
Defined.

Lemma main_stops_at_first_failure_witness :
  sample_main sample_options empty_world
  = (Raise OSError, print empty_world (announce "zsh"))
  ∧ sample_main {| groups := [] |} sample_world
    = (Raise (ValueError
                (Some "Could not find argument with name REQUEST_ITEM")),
       print sample_world (announce "zsh")).
Proof.
  split.
  - apply (proj1 (proj2 (main_stops_at_first_failure "extras" "@" string OK
                           sample_render (OK (External "compile_zsh"))
                           sample_options empty_world))).
    by vm_compute.
  - apply (proj2 (proj2 (main_stops_at_first_failure "extras" "@" string OK
                           sample_render (OK (External "compile_zsh"))
                           {| groups := [] |} sample_world))
             "#compdef http " "#compdef http ");
      by vm_compute.
Defined.

Lemma main_writes_both_scripts_witness :
  (echo_main sample_options sample_world).1 = OK ()
  ∧ files (echo_main sample_options sample_world).2
      !! "extras/completion/completion.zsh"
    = Some "#compdef http "
  ∧ files (echo_main sample_options sample_world).2
      !! "extras/completion/completion.fish"
    = Some ""
  ∧ stdout (echo_main sample_options sample_world).2
    = [] ++ [announce "zsh"; announce "fish"].
Proof.
  apply (main_writes_both_scripts "extras" "@" string OK (λ text _ _, OK text)
           (OK (External "compile_zsh")) sample_options sample_world);
    by vm_compute.
Defined.

Lemma main_keeps_zsh_script_witness :
  (zsh_only_main sample_options sample_world).1
  = Raise (Foreign "TemplateSyntaxError")
  ∧ files (zsh_only_main sample_options sample_world).2
    = <["extras/completion/completion.zsh" := "#compdef http "]>
        (files sample_world)
  ∧ stdout (zsh_only_main sample_options sample_world).2
    = [] ++ [announce "zsh"; announce "fish"].
Proof.
  apply (main_keeps_zsh_script "extras" "@" string OK zsh_only_render
           (OK (External "compile_zsh")) sample_options sample_world);
    by vm_compute.
Defined.

Lemma main_fails_on_unwritable_script_witness :
  echo_main sample_options locked_world
  = (Raise OSError, print locked_world (announce "zsh")).
Proof.
  refine (proj1 (main_fails_on_unwritable_script "extras" "@" string OK
                   (λ text _ _, OK text) (OK (External "compile_zsh"))
                   sample_options locked_world "#compdef http " _) _);
    by vm_compute.
Defined.
